(** * gpustat_web/app.py: the status store, the per-host supervisor,
      fleet start-up and the snapshot renderer

    A shallow embedding of [src/gpustat_web/app.py].  Python [str] values
    are Rocq [string]s whose characters are read as code points below 256;
    Python [int] is [Z]; [OrderedDict] is an association list kept in
    insertion order; exceptions are values of [pyexc]; code that reads or
    writes the global [context] lives in a small state-and-exception
    monad over [Context]. *)

From Stdlib Require Import String Ascii List ZArith Lia Bool Arith.
From Stdlib Require Import DecimalString DecimalNat.
Import ListNotations.

Open Scope list_scope.
Open Scope string_scope.

(** ** Python string primitives *)

Module Py.

Definition chr (n : nat) : ascii := ascii_of_nat n.
Definition ord (c : ascii) : nat := nat_of_ascii c.

Definition LF : ascii := chr 10.
Definition ESC : ascii := chr 27.

(** ["\n"] *)
Definition nl : string := String LF "".

Definition in_range (lo hi c : ascii) : bool :=
  ((ord lo <=? ord c) && (ord c <=? ord hi))%nat.

(** [str.isspace] on one character: TAB..CR, FS..US, SPACE, NEL, NBSP. *)
Definition isspace (c : ascii) : bool :=
  let n := ord c in
  (((9 <=? n) && (n <=? 13)) || ((28 <=? n) && (n <=? 32))
   || (n =? 133) || (n =? 160))%nat.

(** [\d] of a [str] pattern: the decimal digits. *)
Definition isdecimal (c : ascii) : bool := in_range "0" "9" c.

(** [str.isalnum] on one character of the first 256 code points. *)
Definition isalnum (c : ascii) : bool :=
  let n := ord c in
  (in_range "0" "9" c || in_range "A" "Z" c || in_range "a" "z" c
   || (n =? 170) || (n =? 178) || (n =? 179) || (n =? 181)
   || (n =? 185) || (n =? 186) || ((188 <=? n) && (n <=? 190))
   || ((192 <=? n) && (n <=? 214)) || ((216 <=? n) && (n <=? 246))
   || (248 <=? n))%nat.

(** [\w] of a [str] pattern. *)
Definition isword (c : ascii) : bool := isalnum c || (c =? "_")%char.

Fixpoint lstrip (s : string) : string :=
  match s with
  | String c s' => if isspace c then lstrip s' else s
  | EmptyString => EmptyString
  end.

Fixpoint rstrip (s : string) : string :=
  match s with
  | EmptyString => EmptyString
  | String c s' =>
      match rstrip s' with
      | EmptyString => if isspace c then EmptyString else String c EmptyString
      | r => String c r
      end
  end.

(** [s.strip()] *)
Definition strip (s : string) : string := rstrip (lstrip s).

(** [s.split(sep)] for a one-character separator: never the empty list. *)
Fixpoint split (sep : ascii) (s : string) : list string :=
  match s with
  | EmptyString => [EmptyString]
  | String c s' =>
      if (c =? sep)%char then EmptyString :: split sep s'
      else match split sep s' with
           | h :: t => String c h :: t
           | [] => [String c EmptyString]
           end
  end.

(** [sep.join(l)] *)
Definition join (sep : string) (l : list string) : string := String.concat sep l.

(** [str(n)] for an [int]. *)
Definition str_of_int (z : Z) : string := NilZero.string_of_int (Z.to_int z).

Definition digit_val (c : ascii) : Z := Z.of_nat (ord c - ord "0"%char).

(** The number a string of decimal digits denotes: the value of [int(s)]
    when it returns (see [py_int]). *)
Definition int_of_digits (s : string) : Z :=
  fold_left (fun acc c => 10 * acc + digit_val c)%Z (list_ascii_of_string s) 0%Z.

(** The longest prefix whose characters satisfy [p], and what follows. *)
Fixpoint span (p : ascii -> bool) (s : string) : string * string :=
  match s with
  | String c s' =>
      if p c then let (a, b) := span p s' in (String c a, b)
      else (EmptyString, s)
  | EmptyString => (EmptyString, EmptyString)
  end.

Definition all_chars (p : ascii -> bool) (s : string) : bool :=
  forallb p (list_ascii_of_string s).

(** [x in s] for strings, as a proposition. *)
Definition contains (s x : string) : Prop :=
  exists pre post, s = pre ++ x ++ post.

End Py.

(** ** Exceptions *)

(** A raised exception: [type(e).__name__], [str(e)] and whether the class
    derives from [Exception] (what [except Exception] catches);
    [asyncio.CancelledError] derives from [BaseException] only. *)
Record pyexc := mkexc {
  exc_type_name : string;
  exc_str : string;
  exc_is_Exception : bool
}.

Definition ValueError (msg : string) : pyexc := mkexc "ValueError" msg true.
Definition AttributeError (msg : string) : pyexc := mkexc "AttributeError" msg true.
Definition CancelledError : pyexc := mkexc "CancelledError" "" false.

Inductive outcome (A : Type) : Type :=
| Returns (a : A)
| Raises (e : pyexc).
Arguments Returns {A} a.
Arguments Raises {A} e.

(** ** The [re] module: a backtracking matcher

    Greedy quantifiers, ordered alternatives and named groups, in
    continuation-passing style: the continuation is the rest of the
    pattern, and a [None] from it makes the matcher try its next choice,
    as the backtracking engine of [re] does. *)

Module Re.

Inductive regex : Type :=
| Eps
| Class (p : ascii -> bool)            (* one character of a class *)
| Seq (r1 r2 : regex)
| Alt (r1 r2 : regex)                  (* r1|r2 *)
| Opt (r : regex)                      (* r? *)
| Star (p : ascii -> bool)             (* [class]* *)
| Plus (p : ascii -> bool)             (* [class]+ *)
| Group (name : string) (r : regex).   (* (?P<name>r) *)

Definition Lit (c : ascii) : regex := Class (Ascii.eqb c).

(** Captured text of the groups that took part in the match. *)
Definition groups := list (string * string).

Definition or_else {A} (x : option A) (y : option A) : option A :=
  match x with Some _ => x | None => y end.

(** Greedy repetition: take one more character first, give it back when
    the rest of the pattern fails. *)
Fixpoint star_class {A} (p : ascii -> bool) (s : string)
         (k : string -> option A) : option A :=
  match s with
  | String c s' => if p c then or_else (star_class p s' k) (k s) else k s
  | EmptyString => k s
  end.

Definition plus_class {A} (p : ascii -> bool) (s : string)
           (k : string -> option A) : option A :=
  match s with
  | String c s' => if p c then star_class p s' k else None
  | EmptyString => None
  end.

(** The text consumed between [s] and its suffix [s']. *)
Definition consumed (s s' : string) : string :=
  substring 0 (String.length s - String.length s') s.

Fixpoint exec {A} (r : regex) (s : string) (g : groups)
         (k : string -> groups -> option A) : option A :=
  match r with
  | Eps => k s g
  | Class p =>
      match s with
      | String c s' => if p c then k s' g else None
      | EmptyString => None
      end
  | Seq r1 r2 => exec r1 s g (fun s1 g1 => exec r2 s1 g1 k)
  | Alt r1 r2 => or_else (exec r1 s g k) (exec r2 s g k)
  | Opt r1 => or_else (exec r1 s g k) (k s g)
  | Star p => star_class p s (fun s' => k s' g)
  | Plus p => plus_class p s (fun s' => k s' g)
  | Group name r1 => exec r1 s g (fun s' g' => k s' ((name, consumed s s') :: g'))
  end.

Record match_object := {
  m_rest : string;       (* the text after the match *)
  m_groups : groups
}.

(** [re.match(r, s)]: anchored at the start only. *)
Definition re_match (r : regex) (s : string) : option match_object :=
  exec r s [] (fun s' g => Some {| m_rest := s'; m_groups := g |}).

(** [m.group(name)]: [None] for a group that took no part. *)
Fixpoint group_in (g : groups) (name : string) : option string :=
  match g with
  | [] => None
  | (n, v) :: g' => if n =? name then Some v else group_in g' name
  end.

Definition group (m : match_object) (name : string) : option string :=
  group_in (m_groups m) name.

Definition match_length (r : regex) (s : string) : option nat :=
  match re_match r s with
  | Some m => Some (String.length s - String.length (m_rest m))
  | None => None
  end.

(** [r.sub('', s)] from a position inside a match that has [skip]
    characters left: the leftmost matches are deleted one after the
    other, an empty match deletes nothing. *)
Fixpoint sub_empty_from (r : regex) (skip : nat) (s : string) : string :=
  match s with
  | EmptyString => EmptyString
  | String c s' =>
      match skip with
      | S n => sub_empty_from r n s'
      | O =>
          match match_length r s with
          | Some (S n) => sub_empty_from r n s'
          | _ => String c (sub_empty_from r 0 s')
          end
      end
  end.

(** [r.sub('', s)] *)
Definition sub_empty (r : regex) (s : string) : string := sub_empty_from r 0 s.

End Re.

(** ** termcolor

    [colored(text, color)] wraps the text in an SGR sequence and the reset
    sequence when colours are enabled, and returns it unchanged when they
    are not (environment variables, and in later releases whether the
    output is a terminal).  The code of a colour differs between releases
    of the library, so the table is a field of the environment. *)

Module Termcolor.

Inductive color := white | red.

Record env := {
  can_colour : bool;
  COLORS : color -> nat
}.

Definition str_of_nat (n : nat) : string := NilZero.string_of_uint (Nat.to_uint n).

(** ["\033[0m"] *)
Definition RESET : string := String Py.ESC "[0m".

Definition colored (tc : env) (text : string) (c : color) : string :=
  if can_colour tc
  then String Py.ESC "[" ++ str_of_nat (COLORS tc c) ++ "m" ++ text ++ RESET
  else text.

(** Release 1.1.0 with colours on. *)
Definition v1 : env :=
  {| can_colour := true;
     COLORS := fun c => match c with white => 37 | red => 31 end |}.

(** Colours off. *)
Definition plain : env :=
  {| can_colour := false;
     COLORS := fun c => match c with white => 97 | red => 31 end |}.

End Termcolor.

(** ** The global context and its monad *)

(** [collections.OrderedDict] from host name to status text: the items in
    insertion order. *)
Definition OrderedDict := list (string * string).

(** [d[k] = v]: an existing key keeps its place, a new key goes last. *)
Fixpoint od_set (k v : string) (d : OrderedDict) : OrderedDict :=
  match d with
  | [] => [(k, v)]
  | (k', v') :: d' => if k' =? k then (k, v) :: d' else (k', v') :: od_set k v d'
  end.

(** [d.get(k)] *)
Fixpoint od_get (k : string) (d : OrderedDict) : option string :=
  match d with
  | [] => None
  | (k', v') :: d' => if k' =? k then Some v' else od_get k d'
  end.

Definition od_keys (d : OrderedDict) : list string := map fst d.

(** A dictionary has each key once. *)
Definition od_wf (d : OrderedDict) : Prop := NoDup (od_keys d).

(** [class Context]; its [interval], a float that only the page handler
    reads, is left out. *)
Record Context := { host_status : OrderedDict }.

(** [Context()] *)
Definition Context_init : Context := {| host_status := [] |}.

(** Code that runs against the global [context]: the outcome and the
    context it leaves. *)
Definition M (A : Type) : Type := Context -> outcome A * Context.

Definition ret {A} (a : A) : M A := fun ctx => (Returns a, ctx).

Definition raise {A} (e : pyexc) : M A := fun ctx => (Raises e, ctx).

Definition bind {A B} (c : M A) (f : A -> M B) : M B :=
  fun ctx =>
    match c ctx with
    | (Returns a, ctx') => f a ctx'
    | (Raises e, ctx') => (Raises e, ctx')
    end.

(** [try: c  except Exception as e: handler(e)] *)
Definition try_except {A} (c : M A) (handler : pyexc -> M A) : M A :=
  fun ctx =>
    match c ctx with
    | (Raises e, ctx') =>
        if exc_is_Exception e then handler e ctx' else (Raises e, ctx')
    | r => r
    end.

(** Lift what an awaited collaborator answered. *)
Definition await {A} (o : outcome A) : M A := fun ctx => (o, ctx).

Definition get_host_status : M OrderedDict :=
  fun ctx => (Returns (host_status ctx), ctx).

(** [context.host_status[k] = v] *)
Definition set_host_status (k v : string) : M unit :=
  fun ctx => (Returns tt, {| host_status := od_set k v (host_status ctx) |}).

Declare Scope py_scope.
Delimit Scope py_scope with py.
Notation "x <- c ;; k" := (bind c (fun x => k))
  (at level 61, c at next level, right associativity) : py_scope.
Notation "c ;; k" := (bind c (fun _ => k))
  (at level 61, right associativity) : py_scope.
Open Scope py_scope.

Definition exec_M {A} (c : M A) (ctx : Context) : Context := snd (c ctx).
Definition eval_M {A} (c : M A) (ctx : Context) : outcome A := fst (c ctx).

(** ** Patterns of the module *)

(** [RE_ANSI = re.compile(r'\x1B(?:[@-Z\\-_]|\[[0-?]*[ -/]*[@-~])')] *)
Definition RE_ANSI : Re.regex :=
  Re.Seq (Re.Lit Py.ESC)
    (Re.Alt
       (Re.Class (fun c => Py.in_range "@" "Z" c || Py.in_range "\" "_" c))
       (Re.Seq (Re.Lit "[")
          (Re.Seq (Re.Star (Py.in_range "0" "?"))
             (Re.Seq (Re.Star (Py.in_range " " "/"))
                (Re.Class (Py.in_range "@" "~")))))).

(** [r'(?:(?P<user>[\w-]+)@)?(?P<host>[^:]+)(?::(?P<port>\d+))?'] *)
Definition HOST_RE : Re.regex :=
  Re.Seq
    (Re.Opt (Re.Seq (Re.Group "user" (Re.Plus (fun c => Py.isword c || (c =? "-")%char)))
                    (Re.Lit "@")))
    (Re.Seq
       (Re.Group "host" (Re.Plus (fun c => negb (c =? ":")%char)))
       (Re.Opt (Re.Seq (Re.Lit ":") (Re.Group "port" (Re.Plus Py.isdecimal))))).

(** [x or d] for an optional string: [None] and [''] are falsy. *)
Definition py_or (x : option string) (d : string) : string :=
  match x with
  | Some (String _ _ as v) => v
  | _ => d
  end.

(** The [ValueError] of [int(s)] on more digits than the interpreter
    converts: 4300 by default, leading zeros counted, and the program
    does not change the limit; the wording is that of CPython 3.11. *)
Definition int_limit_error (s : string) : pyexc :=
  ValueError ("Exceeds the limit (4300 digits) for integer string conversion: value has "
              ++ Termcolor.str_of_nat (String.length s)
              ++ " digits; use sys.set_int_max_str_digits() to increase the limit").

(** [int(s)] on a non-empty string of decimal digits. *)
Definition py_int (s : string) : outcome Z :=
  if (4300 <? String.length s)%nat then Raises (int_limit_error s)
  else Returns (Py.int_of_digits s).

(** What one [conn.run] hands back. *)
Record completed := {
  exit_status : Z;
  stdout : string;
  stderr : string
}.

(** The collaborators as one supervisor sees them: what its [t]-th
    suspension yields when it is a connection attempt, a command run
    under [wait_for], or an [asyncio.sleep]. *)
Record remote := {
  connect : nat -> outcome unit;
  run : nat -> outcome completed;
  sleep : nat -> outcome unit
}.

(** Where a supervisor is suspended: at [asyncssh.connect], at
    [conn.run], at the sleep that ends a poll, at the sleep after the
    [except] clause; or it has left [run_client] with an exception. *)
Inductive pc :=
| Connecting
| Polling
| PollSleep
| Backoff
| Terminated (e : pyexc).

Record supervisor := {
  sup_pc : pc;
  sup_tick : nat
}.

(** The arguments [spawn_clients] gives to one [run_client]. *)
Record client := {
  c_hostname : string;
  c_exec_cmd : string;
  c_port : Z;
  c_username : string
}.

(** What [spawn_clients] has done when it comes to await
    [asyncio.gather], or when its [except] clause has caught an exception
    before that: the [run_client] coroutines it hands to [gather], and
    the exception the [except] clause printed. *)
Record startup := {
  started : list client;
  printed : option pyexc
}.

Fixpoint for_each {A} (l : list A) (body : A -> M unit) : M unit :=
  match l with
  | [] => ret tt
  | x :: l' => body x ;; for_each l' body
  end.

(** A list comprehension whose element expression may raise. *)
Fixpoint comprehension {A B} (f : A -> outcome B) (l : list A) : outcome (list B) :=
  match l with
  | [] => Returns []
  | x :: l' =>
      match f x with
      | Raises e => Raises e
      | Returns y =>
          match comprehension f l' with
          | Raises e => Raises e
          | Returns ys => Returns (y :: ys)
          end
      end
  end.

Section App.

(** The termcolor environment of the process. *)
Variable tc : Termcolor.env.

(** [ansi_conv.convert(body, full=full_html)] of ansi2html. *)
Variable ansi_convert : string -> bool -> string.

Import Termcolor.

(** [Context.host_set_message] *)
Definition host_set_message (hostname msg : string) : M unit :=
  set_host_status hostname
    (colored tc ("(" ++ hostname ++ ") ") white ++ msg ++ Py.nl).

(** *** [run_client] *)

(** The body of the inner [while True] up to its sleep. *)
Definition poll_once (hostname : string) (r : remote) (t : nat) : M unit :=
  result <- await (run r t) ;;
  if negb (exit_status result =? 0)%Z then
    let stderr_summary := hd "" (Py.split Py.LF (stderr result)) in
    host_set_message hostname
      (colored tc ("[Error " ++ Py.str_of_int (exit_status result) ++ "] "
                   ++ stderr_summary) red)
  else
    set_host_status hostname
      (Py.strip (stdout result) ++ Py.nl ++ Py.nl ++ Py.nl ++ Py.nl).

(** The [except Exception as e] clause of the outer loop. *)
Definition on_exception (hostname : string) (e : pyexc) : M pc :=
  host_set_message hostname
    (colored tc (exc_type_name e ++ ": " ++ exc_str e) red) ;;
  ret Backoff.

(** From one suspension of [run_client] to the next. *)
Definition step (hostname : string) (r : remote) (s : supervisor)
  : Context -> supervisor * Context :=
  fun ctx =>
    let t := sup_tick s in
    let in_try (c : M pc) := try_except c (on_exception hostname) in
    let c : M pc :=
      match sup_pc s with
      | Connecting => in_try (await (connect r t) ;; ret Polling)
      | Polling => in_try (poll_once hostname r t ;; ret PollSleep)
      | PollSleep => in_try (await (sleep r t) ;; ret Polling)
      | Backoff => await (sleep r t) ;; ret Connecting
      | Terminated e => raise e
      end in
    match c ctx with
    | (Returns p, ctx') => ({| sup_pc := p; sup_tick := S t |}, ctx')
    | (Raises e, ctx') => ({| sup_pc := Terminated e; sup_tick := S t |}, ctx')
    end.

(** [run_client(hostname, ...)] through its first [n] suspensions. *)
Fixpoint steps (hostname : string) (r : remote) (n : nat)
         (s : supervisor) (ctx : Context) : supervisor * Context :=
  match n with
  | O => (s, ctx)
  | S n' => let (s', ctx') := step hostname r s ctx in steps hostname r n' s' ctx'
  end.

Definition run_client (hostname : string) (r : remote) (n : nat)
  : Context -> supervisor * Context :=
  steps hostname r n {| sup_pc := Connecting; sup_tick := 0 |}.

(** *** [spawn_clients] *)

Definition _parse_host_string (default_port : Z) (netloc : string)
  : outcome (string * string * Z) :=
  match Re.re_match HOST_RE netloc with
  | None => Raises (ValueError ("Invalid host format: " ++ netloc))
  | Some m =>
      match Re.group m "host" with
      | Some (String _ _ as hostname) =>
          let username := py_or (Re.group m "user") "netdb" in
          match match Re.group m "port" with
                | Some (String _ _ as p) => py_int p
                | _ => Returns default_port
                end with
          | Returns port => Returns (username, hostname, port)
          | Raises e => Raises e
          end
      | _ => Raises (ValueError ("Invalid host format: " ++ netloc))
      end
  end.

(** [exec_cmds.get(hostname, default)], [exec_cmds] being a dict or
    [None] (the default of [create_app]). *)
Definition exec_cmd_for (exec_cmds : option (list (string * string)))
           (hostname : string) : outcome string :=
  match exec_cmds with
  | None => Raises (AttributeError "'NoneType' object has no attribute 'get'")
  | Some d =>
      Returns (match od_get hostname d with
               | Some cmd => cmd
               | None => "gpustat --color --force-color"
               end)
  end.

(** [spawn_clients] up to its [await asyncio.gather(...)]: the parse of
    the tokens, the placeholders, the coroutines created for [gather],
    and the [except Exception] clause for what is raised on the way.
    The await itself, which lasts as long as the supervisors run and is
    left by the [CancelledError] of the shutdown, is not part of it. *)
Definition spawn_clients (hosts : list string)
           (exec_cmds : option (list (string * string)))
           (default_port : Z) : M startup :=
  try_except
    (parsed_hosts <- await (comprehension (_parse_host_string default_port) hosts) ;;
     host_names <- await (match parsed_hosts with
                          | [] => Raises (ValueError
                              "not enough values to unpack (expected 3, got 0)")
                          | _ => Returns (map (fun e => snd (fst e)) parsed_hosts)
                          end) ;;
     for_each host_names (fun hostname => host_set_message hostname "Loading ...") ;;
     clients <- await (comprehension
                  (fun e : string * string * Z =>
                     let '(username, hostname, port) := e in
                     match exec_cmd_for exec_cmds hostname with
                     | Raises x => Raises x
                     | Returns cmd =>
                         Returns {| c_hostname := hostname; c_exec_cmd := cmd;
                                    c_port := port; c_username := username |}
                     end)
                  parsed_hosts) ;;
     ret {| started := clients; printed := None |})
    (fun ex => ret {| started := []; printed := Some ex |}).

(** *** The web handlers *)

(** The loop of [render_gpustat_body] over [host_status.items()]. *)
Definition render_loop (nodes : option (list string)) (items : OrderedDict) : string :=
  fold_left
    (fun body (item : string * string) =>
       let (host, status) := item in
       if status =? "" then body
       else if match nodes with
               | Some l => negb (existsb (String.eqb host) l)
               | None => false
               end then body
       else body ++ status)
    items "".

Definition render_gpustat_body (mode : string) (full_html : bool)
           (nodes : option (list string)) : M string :=
  items <- get_host_status ;;
  let body := render_loop nodes items in
  if mode =? "html" then ret (ansi_convert body full_html)
  else if mode =? "ansi" then ret body
  else if mode =? "plain" then ret (Re.sub_empty RE_ANSI body)
  else raise (ValueError mode).

Definition _parse_querystring_list (value : option string) : option (list string) :=
  match value with
  | Some (String _ _ as v) => Some (Py.split "," (Py.strip v))
  | _ => None
  end.

(** The handler of [make_static_handler(content_type)], from the
    [full] flag it read and the [nodes] query parameter. *)
Definition static_handler (content_type : string) (full : bool)
           (query_nodes : option string) : M string :=
  render_gpustat_body content_type full (_parse_querystring_list query_nodes).

(** [_handle_websocketmessage] on a decoded payload, from its [nodes]
    entry. *)
Definition websocket_message (payload_nodes : option string) : M string :=
  render_gpustat_body "html" false (_parse_querystring_list payload_nodes).

End App.

(** ** The vocabulary of the specification *)

(** Whether a host passes the optional filter. *)
Definition in_filter (nodes : option (list string)) (host : string) : bool :=
  match nodes with
  | None => true
  | Some l => existsb (String.eqb host) l
  end.

(** [snapshot(filter)]: the entries in insertion order, without the hosts
    outside the filter and without the entries whose text is empty. *)
Definition snapshot (nodes : option (list string)) (store : OrderedDict)
  : list (string * string) :=
  filter (fun e => negb (snd e =? "") && in_filter nodes (fst e)) store.

(** [l1] is [l2] with some elements left out, the others in their order. *)
Inductive subsequence {A : Type} : list A -> list A -> Prop :=
| subseq_nil : subsequence [] []
| subseq_skip x l1 l2 : subsequence l1 l2 -> subsequence l1 (x :: l2)
| subseq_keep x l1 l2 : subsequence l1 l2 -> subsequence (x :: l1) (x :: l2).

(** The formats the renderer supports. *)
Definition supported_format (mode : string) : bool :=
  (mode =? "html") || (mode =? "ansi") || (mode =? "plain").

(** A character of the user part of a host token. *)
Definition user_char (c : ascii) : bool := Py.isword c || (c =? "-")%char.

Definition host_char (c : ascii) : bool := negb (c =? ":")%char.

(** The user the parser takes from a token, and the text it goes on
    with: the token begins with a non-empty run of user characters
    followed by [@] and by a character other than a colon; from any
    other token it takes no user and goes on with the whole token. *)
Definition split_user (tok : string) : option string * string :=
  match Py.span user_char tok with
  | (String _ _ as u, String a (String c _ as rest)) =>
      if (a =? "@")%char && host_char c then (Some u, rest) else (None, tok)
  | _ => (None, tok)
  end.

Definition token_user (tok : string) : option string := fst (split_user tok).

Definition token_after_user (tok : string) : string := snd (split_user tok).

(** The host the parser takes: the characters up to the first colon of
    the text it goes on with. *)
Definition token_host (tok : string) : string :=
  fst (Py.span host_char (token_after_user tok)).

(** The digits the parser takes as the port from the text after the
    host: the decimal digits after its colon, when there is at least
    one. *)
Definition port_after (rest : string) : option string :=
  match rest with
  | String _ r =>
      match fst (Py.span Py.isdecimal r) with
      | String _ _ as d => Some d
      | EmptyString => None
      end
  | EmptyString => None
  end.

(** The digits the parser takes as the port of a token. *)
Definition token_port (tok : string) : option string :=
  port_after (snd (Py.span host_char (token_after_user tok))).

(** The groups [HOST_RE] captures from the text after the user part, on
    top of the groups [g] it has: the host and, when digits follow its
    colon, the port; none without a host. *)
Definition host_groups_spec (s : string) (g : Re.groups) : option Re.groups :=
  match fst (Py.span host_char s) with
  | String _ _ as h =>
      Some (match port_after (snd (Py.span host_char s)) with
            | Some d => ("port", d) :: ("host", h) :: g
            | None => ("host", h) :: g
            end)
  | EmptyString => None
  end.

(** The parser finds a host in the token. *)
Definition well_formed (tok : string) : bool := negb (token_host tok =? "").

(** The endpoint of a token, from what the parser takes: no host is a
    [ValueError], digits beyond the limit of [int] are another. *)
Definition endpoint_of_token (default_user : string) (default_port : Z)
           (tok : string) : outcome (string * string * Z) :=
  if well_formed tok then
    match match token_port tok with
          | Some d => py_int d
          | None => Returns default_port
          end with
    | Returns port =>
        Returns (match token_user tok with Some u => u | None => default_user end,
                 token_host tok, port)
    | Raises e => Raises e
    end
  else Raises (ValueError ("Invalid host format: " ++ tok)).




(** [c * n] for a character. *)
Fixpoint repeat_char (c : ascii) (n : nat) : string :=
  match n with
  | O => EmptyString
  | S n' => String c (repeat_char c n')
  end.

(** The character classes of [RE_ANSI]. *)
Definition two_character_final (c : ascii) : bool :=
  Py.in_range "@" "Z" c || Py.in_range "\" "_" c.

Definition csi_parameter (c : ascii) : bool := Py.in_range "0" "?" c.

Definition csi_intermediate (c : ascii) : bool := Py.in_range " " "/" c.

Definition csi_final (c : ascii) : bool := Py.in_range "@" "~" c.

(** An escape sequence: [ESC] and one character of [@-Z], [\], []],
    [^], [_]; or [ESC [], parameter characters, intermediate characters
    and a final character. *)
Inductive escape_sequence : string -> Prop :=
| esc_two c :
    two_character_final c = true ->
    escape_sequence (String Py.ESC (String c ""))
| esc_csi ps ints f :
    Py.all_chars csi_parameter ps = true ->
    Py.all_chars csi_intermediate ints = true ->
    csi_final f = true ->
    escape_sequence (String Py.ESC (String "[" (ps ++ ints ++ String f ""))).

(** [out] is [s] after one pass from the left: where an escape sequence
    begins it is deleted and the pass goes on after it, any other
    character is kept. *)
Inductive stripped_once : string -> string -> Prop :=
| stripped_nil : stripped_once "" ""
| stripped_sequence m rest out :
    escape_sequence m ->
    stripped_once rest out ->
    stripped_once (m ++ rest) out
| stripped_keep c s out :
    (forall m rest, escape_sequence m -> String c s <> m ++ rest) ->
    stripped_once s out ->
    stripped_once (String c s) (String c out).

(** An escape sequence stands somewhere in the text. *)
Definition holds_escape_sequence (s : string) : Prop :=
  exists a m b, s = a ++ m ++ b /\ escape_sequence m.

(** The text ends in ["\n"]. *)
Definition ends_with_newline (s : string) : Prop := exists a, s = a ++ Py.nl.

(** The text [spawn_clients] stores for a host before its supervisor runs. *)
Definition placeholder (tc : Termcolor.env) (hostname : string) : string :=
  Termcolor.colored tc ("(" ++ hostname ++ ") ") Termcolor.white
  ++ "Loading ..." ++ Py.nl.

(** The text the supervisor of a host stores for an exception. *)
Definition failure_message (tc : Termcolor.env) (hostname : string) (e : pyexc)
  : string :=
  Termcolor.colored tc ("(" ++ hostname ++ ") ") Termcolor.white
  ++ Termcolor.colored tc (exc_type_name e ++ ": " ++ exc_str e) Termcolor.red
  ++ Py.nl.

(** The host names of a configured list of tokens, when every token parses. *)
Definition configured (default_port : Z) (hosts : list string) : list string :=
  match comprehension (_parse_host_string default_port) hosts with
  | Returns parsed => map (fun e => snd (fst e)) parsed
  | Raises _ => []
  end.

(** The supervisors a start-up from the empty context launches. *)
Definition launched (tc : Termcolor.env) (hosts : list string)
           (exec_cmds : option (list (string * string))) (default_port : Z)
  : list client :=
  match eval_M (spawn_clients tc hosts exec_cmds default_port) Context_init with
  | Returns st => started st
  | Raises _ => []
  end.

(** The contexts the program reaches: the one start-up leaves, and those
    after any launched supervisor moves from any of its suspensions,
    whatever the collaborators answer. *)
Inductive reachable (tc : Termcolor.env) (hosts : list string)
          (exec_cmds : option (list (string * string))) (default_port : Z)
  : Context -> Prop :=
| reach_startup :
    reachable tc hosts exec_cmds default_port
      (exec_M (spawn_clients tc hosts exec_cmds default_port) Context_init)
| reach_step ctx c r s :
    reachable tc hosts exec_cmds default_port ctx ->
    In c (launched tc hosts exec_cmds default_port) ->
    reachable tc hosts exec_cmds default_port
      (snd (step tc (c_hostname c) r s ctx)).

(** *** Collaborators used in the examples *)

(** A host that refuses every connection. *)
Definition unreachable_host : remote :=
  {| connect := fun _ => Raises (mkexc "ConnectionRefusedError" "[Errno 111] Connect call failed" true);
     run := fun _ => Raises (mkexc "ConnectionLost" "Connection lost" true);
     sleep := fun _ => Returns tt |}.

(** A host whose command prints one line and exits with status 0. *)
Definition healthy_host : remote :=
  {| connect := fun _ => Returns tt;
     run := fun _ => Returns {| exit_status := 0; stdout := "gpu0" ++ Py.nl; stderr := "" |};
     sleep := fun _ => Returns tt |}.

Definition no_markup (body : string) (full : bool) : string := body.

(** ** [main] and [create_app] *)

(** [s.split(sep, 1)]: cut at the first separator, when there is one. *)
Definition split_once (sep : ascii) (s : string) : list string :=
  let (a, b) := Py.span (fun c => negb (c =? sep)%char) s in
  match b with
  | String _ r => [a; r]
  | EmptyString => [a]
  end.

(** The loop of [main] over [args.exec]: [ip, cmd = entry.split(":", 1)]
    and [exec_cmds[ip] = cmd + " --color --force-color"]. *)
Fixpoint exec_cmds_loop (entries : list string) (exec_cmds : OrderedDict)
  : outcome OrderedDict :=
  match entries with
  | [] => Returns exec_cmds
  | entry :: rest =>
      match split_once ":" entry with
      | [ip; cmd] => exec_cmds_loop rest (od_set ip (cmd ++ " --color --force-color") exec_cmds)
      | _ => Raises (ValueError "not enough values to unpack (expected 2, got 1)")
      end
  end.

(** The [exec_cmds] of [main], from [args.exec] ([None] without an
    [--exec] option). *)
Definition main_exec_cmds (exec_args : option (list string)) : outcome OrderedDict :=
  match exec_args with
  | Some ((_ :: _) as entries) => exec_cmds_loop entries []
  | _ => Returns []
  end.

(** [args.hosts or ["localhost"]] *)
Definition main_hosts (hosts_args : list string) : list string :=
  match hosts_args with
  | [] => ["localhost"]
  | _ => hosts_args
  end.

(** The start-up [main] leads to: [create_app] hands its hosts, its
    [exec_cmds] and [args.ssh_port] to [spawn_clients], which runs in the
    context of the module. *)
Definition main_startup (tc : Termcolor.env) (hosts_args : list string)
           (exec_args : option (list string)) (ssh_port : Z)
  : outcome (outcome startup * Context) :=
  match main_exec_cmds exec_args with
  | Raises e => Raises e
  | Returns exec_cmds =>
      Returns (spawn_clients tc (main_hosts hosts_args) (Some exec_cmds) ssh_port
                             Context_init)
  end.

(** The static routes of [create_app]: the path and the [content_type]
    of its handler. *)
Definition static_routes : list (string * string) :=
  [("/gpustat.html", "html"); ("/gpustat.ansi", "ansi"); ("/gpustat.txt", "plain")].

(** The text holds no escape character. *)
Definition no_escape (s : string) : bool :=
  Py.all_chars (fun c => negb (c =? Py.ESC)%char) s.

(** The text the supervisor of a host stores for a command that exits
    with a status other than 0. *)
Definition error_message (tc : Termcolor.env) (hostname : string) (res : completed)
  : string :=
  Termcolor.colored tc ("(" ++ hostname ++ ") ") Termcolor.white
  ++ Termcolor.colored tc
       ("[Error " ++ Py.str_of_int (exit_status res) ++ "] "
        ++ hd "" (Py.split Py.LF (stderr res))) Termcolor.red
  ++ Py.nl.

(** The text the supervisor stores for a command that exits with status 0. *)
Definition success_text (res : completed) : string :=
  Py.strip (stdout res) ++ Py.nl ++ Py.nl ++ Py.nl ++ Py.nl.

(** A host that refuses the first connection and is healthy afterwards. *)
Definition flaky_host : remote :=
  {| connect := fun t =>
       match t with
       | O => Raises (mkexc "ConnectionRefusedError" "[Errno 111] Connect call failed" true)
       | _ => Returns tt
       end;
     run := fun _ => Returns {| exit_status := 0; stdout := "gpu0" ++ Py.nl; stderr := "" |};
     sleep := fun _ => Returns tt |}.

(** A host whose command is missing, under a fleet that is cancelled at
    the supervisor's fifth suspension. *)
Definition broken_host : remote :=
  {| connect := fun _ => Returns tt;
     run := fun _ => Returns {| exit_status := 127; stdout := "";
                                stderr := "gpustat: not found" ++ Py.nl ++ "hint" |};
     sleep := fun t => if (t =? 4)%nat then Raises CancelledError else Returns tt |}.

(** The call a supervisor is suspended at raises [e]. *)
Definition awaited_raises (r : remote) (s : supervisor) (e : pyexc) : Prop :=
  match sup_pc s with
  | Connecting => connect r (sup_tick s) = Raises e
  | Polling => run r (sup_tick s) = Raises e
  | PollSleep | Backoff => sleep r (sup_tick s) = Raises e
  | Terminated _ => False
  end.

(** * Properties *)

(** ** Strings, dictionaries and subsequences *)

Lemma append_nil_r (s : string) : s ++ "" = s.
Proof. induction s as [|c s IH]; simpl; [reflexivity | now rewrite IH]. Qed.

Lemma append_assoc (a b c : string) : (a ++ b) ++ c = a ++ b ++ c.
Proof. induction a as [|x a IH]; simpl; [reflexivity | now rewrite IH]. Qed.

Lemma length_append (a b : string) :
  String.length (a ++ b) = String.length a + String.length b.
Proof. induction a as [|x a IH]; simpl; [reflexivity | now rewrite IH]. Qed.

Lemma join_cons (x : string) (l : list string) :
  Py.join "" (x :: l) = x ++ Py.join "" l.
Proof.
  unfold Py.join. destruct l as [|y l]; simpl.
  - now rewrite append_nil_r.
  - reflexivity.
Qed.

Lemma in_filter_spec (nodes : option (list string)) (h : string) :
  in_filter nodes h = true <-> (forall l, nodes = Some l -> In h l).
Proof.
  destruct nodes as [l|]; simpl.
  - rewrite existsb_exists. split.
    + intros [x [Hin Heq]] l' [= <-]. apply String.eqb_eq in Heq. now subst.
    + intros H. exists h. split; [now apply H | apply String.eqb_refl].
  - split; [discriminate | reflexivity].
Qed.

Lemma filter_subsequence {A} (f : A -> bool) (l : list A) :
  subsequence (filter f l) l.
Proof.
  induction l as [|x l IH]; simpl.
  - constructor.
  - destruct (f x); now constructor.
Qed.

Lemma od_get_set_same (k v : string) (d : OrderedDict) :
  od_get k (od_set k v d) = Some v.
Proof.
  induction d as [|[k' v'] d IH]; simpl.
  - now rewrite String.eqb_refl.
  - destruct (k' =? k) eqn:E; simpl.
    + now rewrite String.eqb_refl.
    + now rewrite E.
Qed.

Lemma od_get_set_other (k k0 v : string) (d : OrderedDict) :
  k0 <> k -> od_get k0 (od_set k v d) = od_get k0 d.
Proof.
  intros Hne. induction d as [|[k' v'] d IH]; simpl.
  - apply String.eqb_neq in Hne. rewrite String.eqb_sym. now rewrite Hne.
  - destruct (k' =? k) eqn:E; simpl.
    + apply String.eqb_eq in E. subst k'.
      assert ((k =? k0) = false) as -> by (apply String.eqb_neq; congruence).
      reflexivity.
    + now rewrite IH.
Qed.

Lemma od_get_In (k v : string) (d : OrderedDict) :
  od_get k d = Some v -> In (k, v) d.
Proof.
  induction d as [|[k' v'] d IH]; simpl; [discriminate|].
  destruct (k' =? k) eqn:E.
  - apply String.eqb_eq in E. intros [= <-]. left. now subst.
  - intros H. right. now apply IH.
Qed.

Lemma od_keys_set_In (k v x : string) (d : OrderedDict) :
  In x (od_keys (od_set k v d)) <-> x = k \/ In x (od_keys d).
Proof.
  unfold od_keys. induction d as [|[k' v'] d IH]; simpl.
  - intuition congruence.
  - destruct (k' =? k) eqn:E; simpl.
    + apply String.eqb_eq in E. subst k'. intuition congruence.
    + rewrite IH. intuition congruence.
Qed.

Lemma od_set_wf (k v : string) (d : OrderedDict) :
  od_wf d -> od_wf (od_set k v d).
Proof.
  unfold od_wf. induction d as [|[k' v'] d IH]; simpl; intros Hwf.
  - repeat constructor. intros [].
  - inversion Hwf as [|? ? Hnotin Hnd]; subst.
    destruct (k' =? k) eqn:E; simpl.
    + apply String.eqb_eq in E. subst k'. now constructor.
    + constructor; [|now apply IH].
      fold (od_keys (od_set k v d)). rewrite od_keys_set_In.
      apply String.eqb_neq in E. intros [->|Hin]; [congruence | now apply Hnotin].
Qed.

(** ** The renderer *)

Lemma render_loop_from (nodes : option (list string)) (items : OrderedDict)
      (acc : string) :
  fold_left
    (fun body (item : string * string) =>
       let (host, status) := item in
       if status =? "" then body
       else if match nodes with
               | Some l => negb (existsb (String.eqb host) l)
               | None => false
               end then body
       else body ++ status)
    items acc
  = acc ++ Py.join "" (map snd (snapshot nodes items)).
Proof.
  revert acc. induction items as [|[h s] items IH]; intros acc.
  - simpl. now rewrite append_nil_r.
  - cbn [fold_left]. rewrite IH. unfold snapshot. cbn [filter fst snd].
    destruct (s =? "") eqn:Es; cbn [negb andb]; [reflexivity|].
    destruct nodes as [l|]; cbn [in_filter].
    + destruct (existsb (String.eqb h) l); cbn [negb map snd].
      * now rewrite join_cons, append_assoc.
      * reflexivity.
    + cbn [map snd]. now rewrite join_cons, append_assoc.
Qed.

Lemma render_loop_snapshot (nodes : option (list string)) (items : OrderedDict) :
  render_loop nodes items = Py.join "" (map snd (snapshot nodes items)).
Proof. unfold render_loop. now rewrite render_loop_from. Qed.

Lemma snapshot_In (nodes : option (list string)) (d : OrderedDict) (h s : string) :
  In (h, s) (snapshot nodes d)
  <-> In (h, s) d /\ s <> "" /\ (forall l, nodes = Some l -> In h l).
Proof.
  unfold snapshot. rewrite filter_In. cbn [fst snd].
  rewrite andb_true_iff, negb_true_iff, String.eqb_neq, in_filter_spec.
  tauto.
Qed.

Lemma render_ansi_snapshot (ansi_convert : string -> bool -> string)
      (full : bool) (nodes : option (list string)) (ctx : Context) :
  eval_M (render_gpustat_body ansi_convert "ansi" full nodes) ctx
  = Returns (Py.join "" (map snd (snapshot nodes (host_status ctx)))).
Proof.
  unfold eval_M, render_gpustat_body, bind, get_host_status, ret.
  cbn. now rewrite render_loop_snapshot.
Qed.

Section Renderer.

Variable ansi_convert : string -> bool -> string.

(** C2. In every format the renderer works on the concatenation, in
    insertion order, of the texts of the snapshot: the store's entries
    with the hosts outside the filter and the empty texts left out. *)
Theorem render_concatenates_snapshot
        (full : bool) (nodes : option (list string)) (ctx : Context) :
  let sn := snapshot nodes (host_status ctx) in
  let body := Py.join "" (map snd sn) in
  eval_M (render_gpustat_body ansi_convert "ansi" full nodes) ctx = Returns body
  /\ eval_M (render_gpustat_body ansi_convert "plain" full nodes) ctx
     = Returns (Re.sub_empty RE_ANSI body)
  /\ eval_M (render_gpustat_body ansi_convert "html" full nodes) ctx
     = Returns (ansi_convert body full)
  /\ subsequence sn (host_status ctx)
  /\ (forall h s, In (h, s) sn
                  <-> In (h, s) (host_status ctx) /\ s <> ""
                      /\ (forall l, nodes = Some l -> In h l)).
Proof.
  cbv zeta. unfold eval_M, render_gpustat_body, bind, get_host_status, ret.
  cbn. rewrite render_loop_snapshot.
  do 3 (split; [reflexivity|]).
  split; [apply filter_subsequence|].
  intros h s. apply snapshot_In.
Qed.

Lemma render_keeps_context (mode : string) (full : bool)
      (nodes : option (list string)) (ctx : Context) :
  exec_M (render_gpustat_body ansi_convert mode full nodes) ctx = ctx.
Proof.
  unfold exec_M, render_gpustat_body, bind, get_host_status, ret, raise. cbn.
  destruct (mode =? "html"); [reflexivity|].
  destruct (mode =? "ansi"); [reflexivity|].
  destruct (mode =? "plain"); reflexivity.
Qed.

(** C7. A format other than the supported ones makes the renderer raise
    [ValueError(mode)], and a call of the renderer, in any format,
    leaves the context as it was. *)
Theorem unsupported_format_raises
        (mode : string) (full : bool) (nodes : option (list string))
        (ctx : Context) :
  supported_format mode = false ->
  eval_M (render_gpustat_body ansi_convert mode full nodes) ctx
  = Raises (ValueError mode)
  /\ forall mode' full' nodes',
      exec_M (render_gpustat_body ansi_convert mode' full' nodes') ctx = ctx.
Proof.
  unfold supported_format. intros H.
  apply orb_false_iff in H as [H Hp]. apply orb_false_iff in H as [Hh Ha].
  split.
  - unfold eval_M, render_gpustat_body, bind, get_host_status, raise. cbn.
    now rewrite Hh, Ha, Hp.
  - intros. apply render_keeps_context.
Qed.

End Renderer.

Lemma unsupported_format_raises_witness :
  eval_M (render_gpustat_body no_markup "json" true None)
         {| host_status := [("node1", "busy")] |}
  = Raises (ValueError "json")
  /\ forall mode' full' nodes',
      exec_M (render_gpustat_body no_markup mode' full' nodes')
             {| host_status := [("node1", "busy")] |}
      = {| host_status := [("node1", "busy")] |}.
Proof.
  apply (unsupported_format_raises no_markup "json" true None).
  reflexivity.
Defined.

(** ** The [nodes] parameter *)

Lemma split_not_nil (sep : ascii) (s : string) : Py.split sep s <> [].
Proof.
  destruct s as [|c s]; simpl; [discriminate|].
  destruct (c =? sep)%char; [discriminate|].
  destruct (Py.split sep s); discriminate.
Qed.

Lemma concat_sep_cons (sep x : string) (l : list string) :
  l <> [] -> String.concat sep (x :: l) = x ++ sep ++ String.concat sep l.
Proof. destruct l; [contradiction | reflexivity]. Qed.

Lemma concat_sep_head (sep : string) (c : ascii) (h : string) (t : list string) :
  String.concat sep (String c h :: t) = String c (String.concat sep (h :: t)).
Proof. destruct t; reflexivity. Qed.

Lemma join_split (sep : ascii) (s : string) :
  Py.join (String sep "") (Py.split sep s) = s.
Proof.
  unfold Py.join. induction s as [|c s IH]; [reflexivity|].
  cbn [Py.split]. pose proof (split_not_nil sep s) as Hne.
  destruct (c =? sep)%char eqn:E.
  - apply Ascii.eqb_eq in E. subst c.
    rewrite concat_sep_cons by assumption. simpl. now rewrite IH.
  - destruct (Py.split sep s) as [|h t]; [contradiction|].
    rewrite concat_sep_head. now rewrite IH.
Qed.

Lemma split_names_without_sep (sep : ascii) (s : string) :
  Forall (fun name => Py.all_chars (fun c => negb (c =? sep)%char) name = true)
         (Py.split sep s).
Proof.
  induction s as [|c s IH]; cbn [Py.split].
  - repeat constructor.
  - destruct (c =? sep)%char eqn:E.
    + constructor; [reflexivity | exact IH].
    + destruct (Py.split sep s) as [|h t].
      * repeat constructor. unfold Py.all_chars. simpl. now rewrite E.
      * inversion IH; subst. constructor; [|assumption].
        unfold Py.all_chars in *. simpl. now rewrite E.
Qed.

Lemma lstrip_all_space (s : string) :
  Py.all_chars Py.isspace s = true -> Py.lstrip s = "".
Proof.
  unfold Py.all_chars. induction s as [|c s IH]; simpl; [reflexivity|].
  intros H. apply andb_true_iff in H as [Hc Hs]. rewrite Hc. now apply IH.
Qed.

(** C9, as the code has it.  An absent or empty [nodes] value is no
    filter, and every host with a text is then in the snapshot.  Any
    other value is a filter: the value is stripped of the white space
    around it as a whole and cut at its commas, nothing is trimmed
    around a name, and a value of white space only is the filter of the
    one name [""]. *)
Theorem parse_querystring_list_spec (c : ascii) (v : string) :
  _parse_querystring_list None = None
  /\ _parse_querystring_list (Some "") = None
  /\ (forall d h s, In (h, s) d -> s <> "" ->
                    In (h, s) (snapshot (_parse_querystring_list None) d)
                    /\ In (h, s) (snapshot (_parse_querystring_list (Some "")) d))
  /\ (exists names,
         _parse_querystring_list (Some (String c v)) = Some names
         /\ names <> []
         /\ Py.join "," names = Py.strip (String c v)
         /\ Forall (fun name =>
                      Py.all_chars (fun x => negb (x =? ",")%char) name = true)
                   names)
  /\ (Py.all_chars Py.isspace (String c v) = true ->
      _parse_querystring_list (Some (String c v)) = Some [""]).
Proof.
  split; [reflexivity|]. split; [reflexivity|].
  split.
  { intros d h s Hin Hs.
    split; apply snapshot_In;
      (split; [assumption|]; split; [assumption|]; intros l Hl; discriminate Hl). }
  split.
  - exists (Py.split "," (Py.strip (String c v))).
    split; [reflexivity|]. split; [apply split_not_nil|].
    split; [apply join_split | apply split_names_without_sep].
  - intros Hws. cbn [_parse_querystring_list]. unfold Py.strip.
    now rewrite (lstrip_all_space _ Hws).
Qed.

Lemma parse_querystring_list_spec_witness :
  _parse_querystring_list (Some (String " " (String Py.LF ""))) = Some [""].
Proof.
  apply (parse_querystring_list_spec " " (String Py.LF "")).
  reflexivity.
Defined.

(** C9 as claimed fails: a [nodes] value of one space is a filter, and
    the response to it leaves out a host that the response without
    [nodes] includes. *)
Lemma blank_nodes_value_is_a_filter :
  _parse_querystring_list (Some " ") <> None
  /\ eval_M (static_handler no_markup "ansi" true (Some " "))
            {| host_status := [("node1", "busy")] |} = Returns ""
  /\ eval_M (websocket_message no_markup (Some " "))
            {| host_status := [("node1", "busy")] |} = Returns ""
  /\ eval_M (static_handler no_markup "ansi" true None)
            {| host_status := [("node1", "busy")] |} = Returns "busy".
Proof. split; [discriminate|]. repeat split. Qed.

(** ** Fleet start-up *)

Lemma comprehension_raises {A B} (f : A -> outcome B) (l : list A) (x : A) :
  In x l -> (exists e, f x = Raises e) ->
  exists pre y post e,
    l = (pre ++ y :: post)%list
    /\ (forall z, In z pre -> exists v, f z = Returns v)
    /\ f y = Raises e
    /\ comprehension f l = Raises e.
Proof.
  induction l as [|a l IH]; intros Hin Hx; [destruct Hin|].
  destruct (f a) as [v|e] eqn:Ea.
  - destruct Hin as [->|Hin].
    { destruct Hx as [e He]. congruence. }
    destruct (IH Hin Hx) as (pre & y & post & e & -> & Hpre & Hy & Hc).
    exists (a :: pre), y, post, e.
    split; [reflexivity|]. split; [|split; [assumption|]].
    + intros z [<-|Hz]; [now exists v | now apply Hpre].
    + simpl. now rewrite Ea, Hc.
  - exists [], a, l, e.
    split; [reflexivity|]. split; [|split; [assumption|]].
    + intros z [].
    + simpl. now rewrite Ea.
Qed.

Lemma comprehension_returns {A B} (f : A -> outcome B) (l : list A) :
  (forall x, In x l -> exists y, f x = Returns y) ->
  exists ys,
    comprehension f l = Returns ys
    /\ (forall x y, In x l -> f x = Returns y -> In y ys)
    /\ (ys = [] -> l = []).
Proof.
  induction l as [|a l IH]; intros Hall.
  - exists []. split; [reflexivity|]. split; [intros x y [] | reflexivity].
  - destruct (Hall a (or_introl eq_refl)) as [b Hb].
    destruct IH as (ys & Hc & Hin & _).
    { intros x Hx. apply Hall. now right. }
    exists (b :: ys). simpl. rewrite Hb, Hc.
    split; [reflexivity|]. split.
    + intros x y [<-|Hx] Hy; [left; congruence | right; eauto].
    + discriminate.
Qed.

Lemma py_int_raises (digits : string) (e : pyexc) :
  py_int digits = Raises e ->
  (4300 < String.length digits)%nat /\ e = int_limit_error digits.
Proof.
  unfold py_int. destruct (4300 <? String.length digits)%nat eqn:E; [|discriminate].
  intros [= <-]. split; [now apply Nat.ltb_lt | reflexivity].
Qed.

Lemma parse_host_string_raises (default_port : Z) (tok : string) (e : pyexc) :
  _parse_host_string default_port tok = Raises e ->
  e = ValueError ("Invalid host format: " ++ tok)
  \/ exists digits, (4300 < String.length digits)%nat /\ e = int_limit_error digits.
Proof.
  unfold _parse_host_string.
  destruct (Re.re_match HOST_RE tok) as [m|]; [|left; congruence].
  destruct (Re.group m "host") as [[|c h]|]; try (left; congruence).
  destruct (Re.group m "port") as [[|x p]|]; try discriminate.
  destruct (py_int (String x p)) as [n|e'] eqn:E; [discriminate|].
  intros [= <-]. right. exists (String x p). now apply py_int_raises.
Qed.

Lemma parse_host_string_raises_Exception (default_port : Z) (tok : string) (e : pyexc) :
  _parse_host_string default_port tok = Raises e -> exc_is_Exception e = true.
Proof.
  intros H. apply parse_host_string_raises in H as [->|(d & _ & ->)]; reflexivity.
Qed.

(** C5, as the code has it.  One malformed token stops the start-up of
    the whole list: no supervisor is launched and the context is left as
    it was, for the well-formed tokens too; the [ValueError] of the first
    malformed token (no host in it, or a port of more digits than [int]
    converts) is caught and printed, and [spawn_clients] returns without
    raising, whether or not every token is malformed. *)
Theorem malformed_token_aborts_startup
        (tc : Termcolor.env) (hosts : list string)
        (exec_cmds : option (list (string * string))) (default_port : Z)
        (ctx : Context) (bad : string) :
  In bad hosts ->
  (exists e, _parse_host_string default_port bad = Raises e) ->
  exists pre tok post e,
    hosts = (pre ++ tok :: post)%list
    /\ (forall z, In z pre -> exists v, _parse_host_string default_port z = Returns v)
    /\ _parse_host_string default_port tok = Raises e
    /\ (e = ValueError ("Invalid host format: " ++ tok)
        \/ exists digits, (4300 < String.length digits)%nat
                          /\ e = int_limit_error digits)
    /\ spawn_clients tc hosts exec_cmds default_port ctx
       = (Returns {| started := []; printed := Some e |}, ctx).
Proof.
  intros Hin Hbad.
  destruct (comprehension_raises _ hosts bad Hin Hbad)
    as (pre & tok & post & e & Hl & Hpre & Htok & Hc).
  exists pre, tok, post, e. split; [assumption|]. split; [assumption|].
  split; [assumption|]. split; [now apply (parse_host_string_raises default_port)|].
  unfold spawn_clients, try_except, bind, await. rewrite Hc.
  now rewrite (parse_host_string_raises_Exception _ _ _ Htok).
Qed.

Lemma malformed_token_aborts_startup_witness :
  exists pre tok post e,
    [":22"; "node2"] = (pre ++ tok :: post)%list
    /\ (forall z, In z pre -> exists v, _parse_host_string 22 z = Returns v)
    /\ _parse_host_string 22 tok = Raises e
    /\ (e = ValueError ("Invalid host format: " ++ tok)
        \/ exists digits, (4300 < String.length digits)%nat
                          /\ e = int_limit_error digits)
    /\ spawn_clients Termcolor.v1 [":22"; "node2"] (Some []) 22 Context_init
       = (Returns {| started := []; printed := Some e |}, Context_init).
Proof.
  apply (malformed_token_aborts_startup Termcolor.v1 [":22"; "node2"] (Some []) 22
                                        Context_init ":22").
  - simpl. left. reflexivity.
  - eexists. vm_compute. reflexivity.
Defined.

(** C5 as claimed fails: with one malformed and one well-formed token no
    supervisor is launched, and with a wholly malformed list the call
    still returns instead of raising. *)
Lemma no_partial_fleet :
  launched Termcolor.v1 [":22"; "node2"] (Some []) 22 = []
  /\ eval_M (spawn_clients Termcolor.v1 [":22"] (Some []) 22) Context_init
     = Returns {| started := [];
                  printed := Some (ValueError "Invalid host format: :22") |}.
Proof. split; reflexivity. Qed.

Lemma for_each_placeholders (tc : Termcolor.env) (names : list string) (ctx : Context) :
  for_each names (fun hostname => host_set_message tc hostname "Loading ...") ctx
  = (Returns tt,
     {| host_status :=
          fold_left (fun d h => od_set h (placeholder tc h) d) names (host_status ctx) |}).
Proof.
  revert ctx. induction names as [|h names IH]; intros [d]; [reflexivity|].
  cbn [for_each fold_left]. unfold bind at 1.
  unfold host_set_message at 1, set_host_status. cbn [host_status].
  rewrite IH. reflexivity.
Qed.

Lemma placeholders_get (tc : Termcolor.env) (names : list string)
      (d : OrderedDict) (h : string) :
  In h names \/ od_get h d = Some (placeholder tc h) ->
  od_get h (fold_left (fun d h => od_set h (placeholder tc h) d) names d)
  = Some (placeholder tc h).
Proof.
  revert d. induction names as [|a names IH]; intros d H; cbn [fold_left].
  - destruct H as [[]|H]; exact H.
  - apply IH. destruct (String.eqb_spec a h) as [->|Hne].
    + right. apply od_get_set_same.
    + destruct H as [[Heq|Hin]|Hget]; [contradiction | now left |].
      right. rewrite od_get_set_other by congruence. exact Hget.
Qed.

Lemma spawn_clients_context (tc : Termcolor.env) (hosts : list string)
      (exec_cmds : option (list (string * string))) (default_port : Z)
      (ctx : Context) (parsed : list (string * string * Z)) :
  comprehension (_parse_host_string default_port) hosts = Returns parsed ->
  parsed <> [] ->
  host_status (exec_M (spawn_clients tc hosts exec_cmds default_port) ctx)
  = fold_left (fun d h => od_set h (placeholder tc h) d)
              (map (fun e => snd (fst e)) parsed) (host_status ctx).
Proof.
  intros Hc Hne.
  unfold exec_M, spawn_clients, try_except, bind at 1. unfold await at 1.
  rewrite Hc. destruct parsed as [|p parsed]; [contradiction|].
  unfold bind at 1. unfold await at 1. unfold bind at 1.
  rewrite for_each_placeholders.
  unfold bind, await, ret.
  destruct (comprehension _ (p :: parsed)) as [cs|e]; [reflexivity|].
  destruct (exc_is_Exception e); reflexivity.
Qed.

Lemma placeholder_not_empty (tc : Termcolor.env) (h : string) : placeholder tc h <> "".
Proof.
  unfold placeholder, Termcolor.colored.
  destruct (Termcolor.can_colour tc); simpl; discriminate.
Qed.

(** C6. When every configured token parses, so that [spawn_clients]
    writes its placeholders, the context it leaves for the supervisors
    holds, for the host of every token, the non-empty placeholder text,
    and the unfiltered snapshot includes it. *)
Theorem placeholders_before_polls
        (tc : Termcolor.env) (hosts : list string)
        (exec_cmds : option (list (string * string))) (default_port : Z)
        (ctx : Context) :
  (forall tok, In tok hosts ->
               exists e, _parse_host_string default_port tok = Returns e) ->
  forall tok username hostname port,
    In tok hosts ->
    _parse_host_string default_port tok = Returns (username, hostname, port) ->
    let ctx' := exec_M (spawn_clients tc hosts exec_cmds default_port) ctx in
    placeholder tc hostname <> ""
    /\ od_get hostname (host_status ctx') = Some (placeholder tc hostname)
    /\ In (hostname, placeholder tc hostname) (snapshot None (host_status ctx')).
Proof.
  intros Hall tok u h p Hin Hp ctx'.
  destruct (comprehension_returns _ hosts Hall) as (parsed & Hc & Hmem & Hnil).
  assert (Hne : parsed <> []).
  { intros ->. rewrite (Hnil eq_refl) in Hin. destruct Hin. }
  assert (Hget : od_get h (host_status ctx') = Some (placeholder tc h)).
  { subst ctx'. rewrite (spawn_clients_context _ _ _ _ _ _ Hc Hne).
    apply placeholders_get. left.
    apply (in_map (fun e => snd (fst e)) parsed (u, h, p)). eauto. }
  split; [apply placeholder_not_empty|]. split; [exact Hget|].
  apply snapshot_In. split; [now apply od_get_In|].
  split; [apply placeholder_not_empty | discriminate].
Qed.

Lemma placeholders_before_polls_witness :
  placeholder Termcolor.v1 "node2" <> ""
  /\ od_get "node2"
       (host_status (exec_M (spawn_clients Termcolor.v1 ["alice@node1:2222"; "node2"]
                                           (Some []) 22) Context_init))
     = Some (placeholder Termcolor.v1 "node2")
  /\ In ("node2", placeholder Termcolor.v1 "node2")
        (snapshot None
           (host_status (exec_M (spawn_clients Termcolor.v1 ["alice@node1:2222"; "node2"]
                                               (Some []) 22) Context_init))).
Proof.
  apply (placeholders_before_polls Termcolor.v1 ["alice@node1:2222"; "node2"]
                                   (Some []) 22 Context_init)
    with (tok := "node2") (username := "netdb") (port := 22%Z).
  - intros tok [<-|[<-|[]]]; eexists; vm_compute; reflexivity.
  - simpl. right. left. reflexivity.
  - vm_compute. reflexivity.
Defined.

(** ** The supervisor *)

Lemma colored_contains (tc : Termcolor.env) (text : string) (c : Termcolor.color) :
  Py.contains (Termcolor.colored tc text c) text.
Proof.
  unfold Py.contains, Termcolor.colored. destruct (Termcolor.can_colour tc).
  - exists (String Py.ESC "[" ++ Termcolor.str_of_nat (Termcolor.COLORS tc c) ++ "m"),
      Termcolor.RESET.
    now rewrite !append_assoc.
  - exists "", "". simpl. now rewrite append_nil_r.
Qed.

Lemma failure_message_contains (tc : Termcolor.env) (hostname : string) (e : pyexc) :
  Py.contains (failure_message tc hostname e) (exc_type_name e ++ ": " ++ exc_str e).
Proof.
  unfold failure_message.
  destruct (colored_contains tc (exc_type_name e ++ ": " ++ exc_str e) Termcolor.red)
    as (pre & post & ->).
  exists (Termcolor.colored tc ("(" ++ hostname ++ ") ") Termcolor.white ++ pre),
    (post ++ Py.nl).
  now rewrite !append_assoc.
Qed.

Lemma step_connect_fails (tc : Termcolor.env) (hostname : string) (r : remote)
      (t : nat) (e : pyexc) (ctx : Context) :
  connect r t = Raises e -> exc_is_Exception e = true ->
  step tc hostname r {| sup_pc := Connecting; sup_tick := t |} ctx
  = ({| sup_pc := Backoff; sup_tick := S t |},
     {| host_status := od_set hostname (failure_message tc hostname e) (host_status ctx) |}).
Proof.
  intros Hc He. unfold step, try_except, bind, await. cbn [sup_pc sup_tick].
  rewrite Hc, He. reflexivity.
Qed.

Lemma step_backoff (tc : Termcolor.env) (hostname : string) (r : remote)
      (t : nat) (ctx : Context) :
  sleep r t = Returns tt ->
  step tc hostname r {| sup_pc := Backoff; sup_tick := t |} ctx
  = ({| sup_pc := Connecting; sup_tick := S t |}, ctx).
Proof.
  intros Hs. unfold step, bind, await. cbn [sup_pc sup_tick].
  rewrite Hs. reflexivity.
Qed.

Lemma steps_add (tc : Termcolor.env) (hostname : string) (r : remote)
      (n m : nat) (s : supervisor) (ctx : Context) :
  steps tc hostname r (n + m) s ctx
  = let (s', ctx') := steps tc hostname r n s ctx in steps tc hostname r m s' ctx'.
Proof.
  revert s ctx. induction n as [|n IH]; intros s ctx; [reflexivity|].
  cbn [Nat.add steps]. destruct (step tc hostname r s ctx) as [s1 ctx1]. apply IH.
Qed.

Section Unreachable.

Variable tc : Termcolor.env.
Variable hostname : string.
Variable r : remote.

Hypothesis connect_fails :
  forall t, exists e, connect r t = Raises e /\ exc_is_Exception e = true.
Hypothesis sleep_returns : forall t, sleep r t = Returns tt.

Lemma retry_cycles (k t : nat) (ctx : Context) :
  exists ctx',
    steps tc hostname r (2 * k) {| sup_pc := Connecting; sup_tick := t |} ctx
    = ({| sup_pc := Connecting; sup_tick := 2 * k + t |}, ctx').
Proof.
  revert t ctx. induction k as [|k IH]; intros t ctx.
  - exists ctx. reflexivity.
  - replace (2 * S k) with (2 + 2 * k) by lia. rewrite steps_add.
    destruct (connect_fails t) as (e & Hc & He).
    cbn [steps]. rewrite (step_connect_fails _ _ _ _ _ _ Hc He).
    rewrite (step_backoff _ _ _ _ _ (sleep_returns (S t))).
    destruct (IH (S (S t))
                 {| host_status := od_set hostname (failure_message tc hostname e)
                                          (host_status ctx) |}) as [ctx' ->].
    exists ctx'. f_equal. f_equal. lia.
Qed.

Lemma alive_after (n t : nat) (ctx : Context) (p : pc) :
  p = Connecting \/ p = Backoff ->
  let s := fst (steps tc hostname r n {| sup_pc := p; sup_tick := t |} ctx) in
  sup_pc s = Connecting \/ sup_pc s = Backoff.
Proof.
  revert t ctx p. induction n as [|n IH]; intros t ctx p Hp; [exact Hp|].
  cbn [steps]. destruct Hp as [-> | ->].
  - destruct (connect_fails t) as (e & Hc & He).
    rewrite (step_connect_fails _ _ _ _ _ _ Hc He). apply IH. now right.
  - rewrite (step_backoff _ _ _ _ _ (sleep_returns t)). apply IH. now left.
Qed.

(** C1. A supervisor whose every connection attempt raises an exception
    (and whose sleeps are not cancelled) is, after each attempt, waiting
    in its back-off sleep with the failure message of that attempt, which
    contains the text [<kind>: <message>], stored for its host; the
    first attempt is its first step.  It never leaves [run_client]. *)
Theorem failing_host_retries_forever (ctx : Context) :
  (forall k, exists e,
      connect r (2 * k) = Raises e
      /\ fst (run_client tc hostname r (2 * k + 1) ctx)
         = {| sup_pc := Backoff; sup_tick := 2 * k + 1 |}
      /\ od_get hostname (host_status (snd (run_client tc hostname r (2 * k + 1) ctx)))
         = Some (failure_message tc hostname e)
      /\ Py.contains (failure_message tc hostname e)
                     (exc_type_name e ++ ": " ++ exc_str e))
  /\ (forall n e, sup_pc (fst (run_client tc hostname r n ctx)) <> Terminated e).
Proof.
  split.
  - intros k. destruct (connect_fails (2 * k)) as (e & Hc & He).
    exists e. split; [exact Hc|].
    unfold run_client. rewrite steps_add.
    destruct (retry_cycles k 0 ctx) as [ctx' ->].
    replace (2 * k + 0) with (2 * k) by lia.
    cbn [steps]. rewrite (step_connect_fails _ _ _ _ _ _ Hc He). cbn [fst snd host_status].
    split; [f_equal; lia|]. split; [apply od_get_set_same|].
    apply failure_message_contains.
  - intros n e. unfold run_client.
    destruct (alive_after n 0 ctx Connecting (or_introl eq_refl)) as [H|H];
      rewrite H; discriminate.
Qed.

End Unreachable.

Lemma failing_host_retries_forever_witness :
  (forall k, exists e,
      connect unreachable_host (2 * k) = Raises e
      /\ fst (run_client Termcolor.v1 "node1" unreachable_host (2 * k + 1) Context_init)
         = {| sup_pc := Backoff; sup_tick := 2 * k + 1 |}
      /\ od_get "node1"
           (host_status (snd (run_client Termcolor.v1 "node1" unreachable_host
                                         (2 * k + 1) Context_init)))
         = Some (failure_message Termcolor.v1 "node1" e)
      /\ Py.contains (failure_message Termcolor.v1 "node1" e)
                     (exc_type_name e ++ ": " ++ exc_str e))
  /\ (forall n e,
         sup_pc (fst (run_client Termcolor.v1 "node1" unreachable_host n Context_init))
         <> Terminated e).
Proof.
  apply (failing_host_retries_forever Termcolor.v1 "node1" unreachable_host).
  - intros t. eexists. split; reflexivity.
  - intros t. reflexivity.
Defined.

Lemma step_terminated (tc : Termcolor.env) (hostname : string) (r : remote)
      (e : pyexc) (t : nat) (ctx : Context) :
  step tc hostname r {| sup_pc := Terminated e; sup_tick := t |} ctx
  = ({| sup_pc := Terminated e; sup_tick := S t |}, ctx).
Proof. reflexivity. Qed.

Lemma steps_terminated (tc : Termcolor.env) (hostname : string) (r : remote)
      (n : nat) (e : pyexc) (t : nat) (ctx : Context) :
  sup_pc (fst (steps tc hostname r n {| sup_pc := Terminated e; sup_tick := t |} ctx))
  = Terminated e.
Proof.
  revert t. induction n as [|n IH]; intros t; [reflexivity|].
  cbn [steps]. rewrite step_terminated. apply IH.
Qed.

(** A step ends [run_client] only when the awaited call raises: an
    exception that [except Exception] does not catch, or any exception
    from the sleep after the [except] clause. *)
Lemma step_terminates (tc : Termcolor.env) (hostname : string) (r : remote)
      (s : supervisor) (ctx : Context) (e : pyexc) :
  (forall e0, sup_pc s <> Terminated e0) ->
  sup_pc (fst (step tc hostname r s ctx)) = Terminated e ->
  (sup_pc s = Backoff /\ sleep r (sup_tick s) = Raises e)
  \/ (exc_is_Exception e = false
      /\ (connect r (sup_tick s) = Raises e
          \/ run r (sup_tick s) = Raises e
          \/ sleep r (sup_tick s) = Raises e)).
Proof.
  destruct s as [p t]. cbn [sup_pc sup_tick]. intros Hlive.
  unfold step, try_except, poll_once, on_exception, host_set_message,
    set_host_status, bind, await, ret, raise.
  cbn [sup_pc sup_tick].
  destruct p as [| | | |e0].
  - destruct (connect r t) as [u|x]; [discriminate|].
    destruct (exc_is_Exception x) eqn:Ex; [discriminate|].
    intros [= <-]. right. auto.
  - destruct (run r t) as [res|x].
    + destruct (negb (exit_status res =? 0)%Z); discriminate.
    + destruct (exc_is_Exception x) eqn:Ex; [discriminate|].
      intros [= <-]. right. auto.
  - destruct (sleep r t) as [u|x]; [discriminate|].
    destruct (exc_is_Exception x) eqn:Ex; [discriminate|].
    intros [= <-]. right. auto.
  - destruct (sleep r t) as [u|x]; [discriminate|].
    intros [= <-]. left. auto.
  - now destruct (Hlive e0).
Qed.

(** X5. [run_client] is left only through a raise: when the supervisor
    has left it with an exception, one of its sleeps raised that
    exception, or a connection attempt or a command run raised it and it
    is not an [Exception]. *)
Lemma run_client_terminates (tc : Termcolor.env) (hostname : string) (r : remote)
      (n : nat) (ctx : Context) (e : pyexc) :
  sup_pc (fst (run_client tc hostname r n ctx)) = Terminated e ->
  exists t,
    sleep r t = Raises e
    \/ (exc_is_Exception e = false
        /\ (connect r t = Raises e \/ run r t = Raises e)).
Proof.
  unfold run_client.
  assert (Hlive : forall e0,
             sup_pc {| sup_pc := Connecting; sup_tick := 0 |} <> Terminated e0)
    by discriminate.
  revert Hlive. generalize {| sup_pc := Connecting; sup_tick := 0 |} as s.
  revert ctx. induction n as [|n IH]; intros ctx s Hlive Hend.
  - now destruct (Hlive e).
  - cbn [steps] in Hend.
    destruct (step tc hostname r s ctx) as [s1 ctx1] eqn:Estep.
    cbv iota in Hend. destruct s1 as [p1 t1]. destruct p1 as [| | | |e1].
    1-4: (eapply IH; [|exact Hend]; discriminate).
    rewrite steps_terminated in Hend. injection Hend as <-.
    destruct (step_terminates tc hostname r s ctx e1 Hlive) as [[_ H]|[Hx H]].
    + now rewrite Estep.
    + exists (sup_tick s). now left.
    + exists (sup_tick s). destruct H as [H|[H|H]]; auto.
Qed.

(** ** What a supervisor writes *)

Lemma ends_with_newline_not_empty (s : string) : ends_with_newline s -> s <> "".
Proof. intros [a ->]. destruct a; discriminate. Qed.

Lemma host_message_ends_with_newline (tc : Termcolor.env) (hostname msg : string) :
  ends_with_newline
    (Termcolor.colored tc ("(" ++ hostname ++ ") ") Termcolor.white ++ msg ++ Py.nl).
Proof.
  exists (Termcolor.colored tc ("(" ++ hostname ++ ") ") Termcolor.white ++ msg).
  now rewrite append_assoc.
Qed.

Lemma stripped_output_ends_with_newline (out : string) :
  ends_with_newline (Py.strip out ++ Py.nl ++ Py.nl ++ Py.nl ++ Py.nl).
Proof.
  exists (Py.strip out ++ Py.nl ++ Py.nl ++ Py.nl). now rewrite !append_assoc.
Qed.

(** A step of a supervisor leaves the context alone or assigns, to its
    own host, a text that ends in a newline and does not depend on the
    context. *)
Lemma step_writes (tc : Termcolor.env) (hostname : string) (r : remote)
      (s : supervisor) :
  (forall ctx, snd (step tc hostname r s ctx) = ctx)
  \/ (exists v,
         ends_with_newline v
         /\ forall ctx, snd (step tc hostname r s ctx)
                        = {| host_status := od_set hostname v (host_status ctx) |}).
Proof.
  destruct s as [p t].
  unfold step, try_except, poll_once, on_exception, host_set_message,
    set_host_status, bind, await, ret, raise.
  cbn [sup_pc sup_tick].
  destruct p as [| | | |e0].
  - destruct (connect r t) as [u|e]; [left; reflexivity|].
    destruct (exc_is_Exception e); [right|left; reflexivity].
    eexists. split; [|intros ctx; reflexivity].
    apply host_message_ends_with_newline.
  - destruct (run r t) as [res|e].
    + right. destruct (negb (exit_status res =? 0)%Z).
      * eexists. split; [|intros ctx; reflexivity].
        apply host_message_ends_with_newline.
      * eexists. split; [|intros ctx; reflexivity].
        apply stripped_output_ends_with_newline.
    + destruct (exc_is_Exception e); [right|left; reflexivity].
      eexists. split; [|intros ctx; reflexivity].
      apply host_message_ends_with_newline.
  - destruct (sleep r t) as [u|e]; [left; reflexivity|].
    destruct (exc_is_Exception e); [right|left; reflexivity].
    eexists. split; [|intros ctx; reflexivity].
    apply host_message_ends_with_newline.
  - destruct (sleep r t) as [u|e]; left; reflexivity.
  - left. reflexivity.
Qed.

Lemma snapshot_other_hosts (k : string) (d : OrderedDict) :
  ~ In k (od_keys d) -> snapshot (Some [k]) d = [].
Proof.
  unfold snapshot, od_keys. induction d as [|[k' v'] d IH]; intros Hn; [reflexivity|].
  cbn [filter fst snd in_filter existsb]. simpl in Hn.
  destruct (String.eqb_spec k' k) as [->|Hne]; [tauto|].
  rewrite orb_false_r, andb_false_r. apply IH. tauto.
Qed.

Lemma snapshot_one_host (k v : string) (d : OrderedDict) :
  od_wf d -> od_get k d = Some v -> v <> "" -> snapshot (Some [k]) d = [(k, v)].
Proof.
  unfold od_wf. induction d as [|[k' v'] d IH]; intros Hwf Hget Hv; [discriminate|].
  simpl in Hwf. inversion Hwf as [|? ? Hnotin Hnd]; subst.
  simpl in Hget. unfold snapshot. cbn [filter fst snd in_filter existsb].
  destruct (String.eqb_spec k' k) as [->|Hne].
  - injection Hget as ->. apply String.eqb_neq in Hv. rewrite Hv. cbn.
    f_equal. now apply snapshot_other_hosts.
  - rewrite orb_false_r, andb_false_r. now apply IH.
Qed.

(** C3, as the code has it.  After a poll with exit status 0 the raw
    snapshot filtered to the host is the captured output stripped of the
    white space around it and followed by four newlines.  Whatever a
    step of the supervisor writes for its host replaces the entry: the
    new text is the same from any two contexts. *)
Theorem successful_poll_snapshot
        (tc : Termcolor.env) (ansi_convert : string -> bool -> string)
        (hostname : string) (r : remote) (t : nat) (res : completed)
        (full : bool) (ctx : Context) :
  run r t = Returns res ->
  exit_status res = 0%Z ->
  od_wf (host_status ctx) ->
  eval_M (render_gpustat_body ansi_convert "ansi" full (Some [hostname]))
         (snd (step tc hostname r {| sup_pc := Polling; sup_tick := t |} ctx))
  = Returns (Py.strip (stdout res) ++ Py.nl ++ Py.nl ++ Py.nl ++ Py.nl)
  /\ forall r' s' ctx1 ctx2,
      (snd (step tc hostname r' s' ctx1) = ctx1
       /\ snd (step tc hostname r' s' ctx2) = ctx2)
      \/ exists v,
          od_get hostname (host_status (snd (step tc hostname r' s' ctx1))) = Some v
          /\ od_get hostname (host_status (snd (step tc hostname r' s' ctx2))) = Some v.
Proof.
  intros Hrun Hexit Hwf. split.
  - unfold step, try_except, poll_once, set_host_status, bind, await, ret.
    cbn [sup_pc sup_tick]. rewrite Hrun, Hexit. cbn [Z.eqb negb snd].
    rewrite render_ansi_snapshot. cbn [host_status].
    rewrite (snapshot_one_host hostname
               (Py.strip (stdout res) ++ Py.nl ++ Py.nl ++ Py.nl ++ Py.nl)).
    + reflexivity.
    + now apply od_set_wf.
    + apply od_get_set_same.
    + apply ends_with_newline_not_empty, stripped_output_ends_with_newline.
  - intros r' s' ctx1 ctx2.
    destruct (step_writes tc hostname r' s') as [H|(v & _ & H)].
    + left. now rewrite !H.
    + right. exists v. rewrite !H. cbn [host_status].
      split; apply od_get_set_same.
Qed.

Lemma successful_poll_snapshot_witness :
  eval_M (render_gpustat_body no_markup "ansi" false (Some ["node1"]))
         (snd (step Termcolor.v1 "node1" healthy_host
                    {| sup_pc := Polling; sup_tick := 1 |}
                    {| host_status := [("node1", placeholder Termcolor.v1 "node1")] |}))
  = Returns (Py.strip ("gpu0" ++ Py.nl) ++ Py.nl ++ Py.nl ++ Py.nl ++ Py.nl).
Proof.
  apply (successful_poll_snapshot Termcolor.v1 no_markup "node1" healthy_host 1
           {| exit_status := 0; stdout := "gpu0" ++ Py.nl; stderr := "" |}).
  - reflexivity.
  - reflexivity.
  - unfold od_wf. simpl. repeat constructor. intros [].
Defined.

(** C3 as claimed fails: the snapshot taken after a successful poll is
    not the captured output itself. *)
Lemma stored_output_is_not_captured_output :
  run healthy_host 1
  = Returns {| exit_status := 0; stdout := "gpu0" ++ Py.nl; stderr := "" |}
  /\ eval_M (render_gpustat_body no_markup "ansi" false (Some ["node1"]))
            (snd (step Termcolor.plain "node1" healthy_host
                       {| sup_pc := Polling; sup_tick := 1 |} Context_init))
     <> Returns ("gpu0" ++ Py.nl).
Proof. split; [reflexivity|]. vm_compute. discriminate. Qed.

(** ** Every stored text ends in a newline *)

Lemma od_set_In_inv (k v h s : string) (d : OrderedDict) :
  In (h, s) (od_set k v d) -> (h, s) = (k, v) \/ In (h, s) d.
Proof.
  induction d as [|[k' v'] d IH]; simpl.
  - intros [H|[]]. left. now symmetry.
  - destruct (k' =? k); simpl.
    + intros [H|H]; [left; now symmetry | right; now right].
    + intros [H|H]; [right; now left|].
      destruct (IH H) as [E|E]; [now left | right; now right].
Qed.

Lemma od_get_set_is_some (k v h : string) (d : OrderedDict) :
  (exists s, od_get h d = Some s) -> exists s, od_get h (od_set k v d) = Some s.
Proof.
  intros [s Hs]. destruct (String.eqb_spec h k) as [->|Hne].
  - exists v. apply od_get_set_same.
  - exists s. now rewrite od_get_set_other.
Qed.

Lemma snapshot_all (d : OrderedDict) :
  (forall h s, In (h, s) d -> s <> "") -> snapshot None d = d.
Proof.
  unfold snapshot. induction d as [|[h s] d IH]; intros H; [reflexivity|].
  cbn [filter fst snd in_filter].
  assert (Hs : (s =? "") = false) by (apply String.eqb_neq, (H h); now left).
  rewrite Hs. cbn [negb andb]. f_equal. apply IH.
  intros h' s' Hin. apply (H h'). now right.
Qed.

Lemma spawn_clients_store (tc : Termcolor.env) (hosts : list string)
      (exec_cmds : option (list (string * string))) (default_port : Z)
      (ctx : Context) :
  host_status (exec_M (spawn_clients tc hosts exec_cmds default_port) ctx)
  = fold_left (fun d h => od_set h (placeholder tc h) d)
              (configured default_port hosts) (host_status ctx).
Proof.
  unfold configured.
  destruct (comprehension (_parse_host_string default_port) hosts)
    as [parsed|e] eqn:Hc.
  - destruct parsed as [|p parsed].
    + unfold exec_M, spawn_clients, try_except, bind, await. rewrite Hc. reflexivity.
    + now apply spawn_clients_context.
  - unfold exec_M, spawn_clients, try_except, bind, await. rewrite Hc.
    destruct (exc_is_Exception e); reflexivity.
Qed.

Lemma placeholders_end_with_newline (tc : Termcolor.env) (names : list string)
      (d : OrderedDict) :
  (forall h s, In (h, s) d -> ends_with_newline s) ->
  forall h s,
    In (h, s) (fold_left (fun d h => od_set h (placeholder tc h) d) names d) ->
    ends_with_newline s.
Proof.
  revert d. induction names as [|a names IH]; intros d Hd; [exact Hd|].
  cbn [fold_left]. apply IH. intros h s Hin.
  apply od_set_In_inv in Hin as [[= -> ->]|Hin]; [|now apply (Hd h)].
  apply host_message_ends_with_newline.
Qed.

Lemma reachable_invariant (tc : Termcolor.env) (hosts : list string)
      (exec_cmds : option (list (string * string))) (default_port : Z)
      (ctx : Context) :
  reachable tc hosts exec_cmds default_port ctx ->
  (forall h s, In (h, s) (host_status ctx) -> ends_with_newline s)
  /\ (forall h, In h (configured default_port hosts) ->
                exists s, od_get h (host_status ctx) = Some s).
Proof.
  induction 1 as [|ctx c r s Hreach [IHnl IHkeys] Hc].
  - rewrite spawn_clients_store. split.
    + apply placeholders_end_with_newline. intros h s [].
    + intros h Hin. exists (placeholder tc h). apply placeholders_get. now left.
  - destruct (step_writes tc (c_hostname c) r s) as [H|(v & Hv & H)]; rewrite H.
    + now split.
    + cbn [host_status]. split.
      * intros h s' Hin. apply od_set_In_inv in Hin as [[= -> ->]|Hin];
          [exact Hv | now apply (IHnl h)].
      * intros h Hin. now apply od_get_set_is_some, IHkeys.
Qed.

(** C10. In every context the program reaches from the empty one, each
    stored text ends in a newline and so is not empty; the renderer
    therefore skips no entry, and the host of every configured token,
    once start-up has written its placeholder, has an entry that the
    unfiltered snapshot includes. *)
Theorem stored_texts_end_with_newline
        (tc : Termcolor.env) (hosts : list string)
        (exec_cmds : option (list (string * string))) (default_port : Z)
        (ctx : Context) :
  reachable tc hosts exec_cmds default_port ctx ->
  (forall h s, In (h, s) (host_status ctx) -> ends_with_newline s /\ s <> "")
  /\ snapshot None (host_status ctx) = host_status ctx
  /\ (forall h, In h (configured default_port hosts) ->
                exists s, od_get h (host_status ctx) = Some s
                          /\ In (h, s) (snapshot None (host_status ctx))).
Proof.
  intros Hreach.
  destruct (reachable_invariant _ _ _ _ _ Hreach) as [Hnl Hkeys].
  assert (Hall : snapshot None (host_status ctx) = host_status ctx).
  { apply snapshot_all. intros h s Hin.
    now apply ends_with_newline_not_empty, (Hnl h). }
  split; [|split; [exact Hall|]].
  - intros h s Hin. split; [now apply (Hnl h)|].
    now apply ends_with_newline_not_empty, (Hnl h).
  - intros h Hin. destruct (Hkeys h Hin) as [s Hs].
    exists s. split; [exact Hs|]. rewrite Hall. now apply od_get_In.
Qed.

Lemma stored_texts_end_with_newline_witness :
  let ctx :=
    snd (step Termcolor.v1 "node2" healthy_host {| sup_pc := Polling; sup_tick := 1 |}
              (exec_M (spawn_clients Termcolor.v1 ["alice@node1:2222"; "node2"]
                                     (Some []) 22) Context_init)) in
  (forall h s, In (h, s) (host_status ctx) -> ends_with_newline s /\ s <> "")
  /\ snapshot None (host_status ctx) = host_status ctx
  /\ (forall h, In h (configured 22 ["alice@node1:2222"; "node2"]) ->
                exists s, od_get h (host_status ctx) = Some s
                          /\ In (h, s) (snapshot None (host_status ctx))).
Proof.
  apply (stored_texts_end_with_newline
           Termcolor.v1 ["alice@node1:2222"; "node2"] (Some []) 22).
  apply (reach_step Termcolor.v1 ["alice@node1:2222"; "node2"] (Some []) 22 _
           {| c_hostname := "node2"; c_exec_cmd := "gpustat --color --force-color";
              c_port := 22; c_username := "netdb" |}).
  - apply reach_startup.
  - vm_compute. right. left. reflexivity.
Defined.

(** ** Host tokens *)

Lemma or_else_None_r {A} (x : option A) : Re.or_else x None = x.
Proof. now destruct x. Qed.

Lemma span_append (p : ascii -> bool) (s : string) :
  fst (Py.span p s) ++ snd (Py.span p s) = s.
Proof.
  induction s as [|c s IH]; [reflexivity|]. cbn [Py.span].
  destruct (p c); [|reflexivity].
  destruct (Py.span p s) as [a b]. cbn [fst snd] in *. simpl. now rewrite IH.
Qed.

Lemma span_rest_head (p : ascii -> bool) (s : string) (c : ascii) (r : string) :
  snd (Py.span p s) = String c r -> p c = false.
Proof.
  induction s as [|x s IH]; cbn [Py.span]; [discriminate|].
  destruct (p x) eqn:E.
  - destruct (Py.span p s) as [a b]. exact IH.
  - cbn [snd]. intros [= -> ->]. exact E.
Qed.

Lemma substring_prefix (a b : string) :
  substring 0 (String.length a) (a ++ b) = a.
Proof.
  induction a as [|c a IH]; simpl.
  - now destruct b.
  - now rewrite IH.
Qed.

Lemma consumed_span (p : ascii -> bool) (s : string) :
  Re.consumed s (snd (Py.span p s)) = fst (Py.span p s).
Proof.
  unfold Re.consumed. rewrite <- (span_append p s) at 1 3.
  rewrite length_append, Nat.add_sub. apply substring_prefix.
Qed.

(** Greedy repetition hands the rest of the pattern the longest run first;
    a rest that cannot start with a character of the class sees nothing
    else. *)
Lemma star_class_reject {A} (p : ascii -> bool) (s : string)
      (k : string -> option A) :
  (forall c s', p c = true -> k (String c s') = None) ->
  Re.star_class p s k = k (snd (Py.span p s)).
Proof.
  intros Hk. induction s as [|c s IH]; [reflexivity|].
  cbn [Re.star_class Py.span]. destruct (p c) eqn:E; [|reflexivity].
  rewrite IH, (Hk c s E), or_else_None_r.
  now destruct (Py.span p s).
Qed.

Lemma star_class_accept {A} (p : ascii -> bool) (s : string)
      (k : string -> option A) :
  (forall s', k s' <> None) ->
  Re.star_class p s k = k (snd (Py.span p s)).
Proof.
  intros Hk. induction s as [|c s IH]; [reflexivity|].
  cbn [Re.star_class Py.span]. destruct (p c) eqn:E; [|reflexivity].
  rewrite IH. replace (snd (let (a, b) := Py.span p s in (String c a, b)))
    with (snd (Py.span p s)) by now destruct (Py.span p s).
  destruct (k (snd (Py.span p s))) eqn:Ek; [reflexivity|].
  now apply Hk in Ek.
Qed.

Lemma exec_group_plus {A} (name : string) (p : ascii -> bool) (s : string)
      (g : Re.groups) (k : string -> Re.groups -> option A) :
  (forall c s' g', p c = true -> k (String c s') g' = None)
  \/ (forall s' g', k s' g' <> None) ->
  Re.exec (Re.Group name (Re.Plus p)) s g k
  = match fst (Py.span p s) with
    | String _ _ as a => k (snd (Py.span p s)) ((name, a) :: g)
    | EmptyString => None
    end.
Proof.
  intros Hk. cbn [Re.exec]. unfold Re.plus_class.
  destruct s as [|c s]; [reflexivity|].
  pose proof (consumed_span p (String c s)) as Hcons.
  cbn [Py.span] in *. destruct (p c) eqn:E; [|reflexivity].
  assert (Hstar : forall k' : string -> option A,
             (forall c s', p c = true -> k' (String c s') = None)
             \/ (forall s', k' s' <> None) ->
             Re.star_class p s k' = k' (snd (Py.span p s))).
  { intros k' [H|H]; [now apply star_class_reject | now apply star_class_accept]. }
  rewrite Hstar.
  - destruct (Py.span p s) as [a b]. cbn [fst snd] in *. now rewrite Hcons.
  - destruct Hk as [H|H]; [left | right]; intros; now apply H.
Qed.

Lemma user_char_not_at (c : ascii) : user_char c = true -> Ascii.eqb "@" c = false.
Proof.
  intros H. destruct (Ascii.eqb_spec "@" c) as [<-|]; [|reflexivity].
  vm_compute in H. discriminate.
Qed.

Lemma host_char_false (c : ascii) : host_char c = false -> Ascii.eqb ":" c = true.
Proof.
  unfold host_char. intros H. apply negb_false_iff in H.
  now rewrite Ascii.eqb_sym.
Qed.


Lemma star_class_ext {A} (p : ascii -> bool) (s : string)
      (k k' : string -> option A) :
  (forall s', k s' = k' s') -> Re.star_class p s k = Re.star_class p s k'.
Proof.
  intros H. induction s as [|c s IH]; cbn [Re.star_class]; [apply H|].
  now rewrite IH, H.
Qed.

Lemma exec_ext {A} (r : Re.regex) :
  forall (s : string) (g : Re.groups) (k k' : string -> Re.groups -> option A),
    (forall s' g', k s' g' = k' s' g') -> Re.exec r s g k = Re.exec r s g k'.
Proof.
  induction r as [|p|r1 IH1 r2 IH2|r1 IH1 r2 IH2|r1 IH1|p|p|name r1 IH1];
    intros s g k k' H; cbn [Re.exec].
  - apply H.
  - destruct s as [|c s]; [reflexivity|]. now rewrite H.
  - apply IH1. intros s1 g1. now apply IH2.
  - now rewrite (IH1 s g k k' H), (IH2 s g k k' H).
  - now rewrite (IH1 s g k k' H), H.
  - apply star_class_ext. intros s'. apply H.
  - unfold Re.plus_class. destruct s as [|c s]; [reflexivity|].
    destruct (p c); [|reflexivity]. apply star_class_ext. intros s'. apply H.
  - apply IH1. intros s' g'. apply H.
Qed.

Lemma or_else_map {A B} (f : A -> B) (x y : option A) :
  option_map f (Re.or_else x y) = Re.or_else (option_map f x) (option_map f y).
Proof. now destruct x. Qed.

Lemma star_class_map {A B} (f : A -> B) (p : ascii -> bool) (s : string)
      (k : string -> option A) :
  option_map f (Re.star_class p s k)
  = Re.star_class p s (fun s' => option_map f (k s')).
Proof.
  induction s as [|c s IH]; cbn [Re.star_class]; [reflexivity|].
  destruct (p c); [|reflexivity]. now rewrite or_else_map, IH.
Qed.

(** What a match is mapped to can be computed by the continuation. *)
Lemma exec_map {A B} (f : A -> B) (r : Re.regex) :
  forall (s : string) (g : Re.groups) (k : string -> Re.groups -> option A),
    option_map f (Re.exec r s g k)
    = Re.exec r s g (fun s' g' => option_map f (k s' g')).
Proof.
  induction r as [|p|r1 IH1 r2 IH2|r1 IH1 r2 IH2|r1 IH1|p|p|name r1 IH1];
    intros s g k; cbn [Re.exec].
  - reflexivity.
  - destruct s as [|c s]; [reflexivity|]. now destruct (p c).
  - rewrite IH1. apply exec_ext. intros s1 g1. apply IH2.
  - now rewrite or_else_map, IH1, IH2.
  - now rewrite or_else_map, IH1.
  - apply star_class_map.
  - unfold Re.plus_class. destruct s as [|c s]; [reflexivity|].
    destruct (p c); [|reflexivity]. apply star_class_map.
  - now rewrite IH1.
Qed.

Lemma exec_Seq {A} (r1 r2 : Re.regex) (s : string) (g : Re.groups)
      (k : string -> Re.groups -> option A) :
  Re.exec (Re.Seq r1 r2) s g k = Re.exec r1 s g (fun s1 g1 => Re.exec r2 s1 g1 k).
Proof. reflexivity. Qed.

Lemma exec_Opt {A} (r : Re.regex) (s : string) (g : Re.groups)
      (k : string -> Re.groups -> option A) :
  Re.exec (Re.Opt r) s g k = Re.or_else (Re.exec r s g k) (k s g).
Proof. reflexivity. Qed.

Lemma exec_Lit {A} (c : ascii) (s : string) (g : Re.groups)
      (k : string -> Re.groups -> option A) :
  Re.exec (Re.Lit c) s g k
  = match s with
    | String x s' => if Ascii.eqb c x then k s' g else None
    | EmptyString => None
    end.
Proof. reflexivity. Qed.

Lemma exec_port (rest : string) (g : Re.groups) :
  rest = "" \/ (exists r, rest = String ":" r) ->
  Re.exec (Re.Opt (Re.Seq (Re.Lit ":") (Re.Group "port" (Re.Plus Py.isdecimal))))
          rest g (fun _ g' => Some g')
  = Some (match port_after rest with
          | Some d => ("port", d) :: g
          | None => g
          end).
Proof.
  intros [->|[r ->]]; [reflexivity|].
  rewrite exec_Opt, exec_Seq, exec_Lit. cbn [Ascii.eqb Bool.eqb andb].
  rewrite exec_group_plus by (right; discriminate).
  unfold port_after. now destruct (fst (Py.span Py.isdecimal r)).
Qed.

Lemma exec_host_tail (s : string) (g : Re.groups) :
  Re.exec (Re.Seq (Re.Group "host" (Re.Plus (fun c => negb (c =? ":")%char)))
                  (Re.Opt (Re.Seq (Re.Lit ":")
                                  (Re.Group "port" (Re.Plus Py.isdecimal)))))
          s g (fun _ g' => Some g')
  = host_groups_spec s g.
Proof.
  rewrite exec_Seq, exec_group_plus.
  - unfold host_groups_spec. fold host_char.
    destruct (fst (Py.span host_char s)) as [|c h] eqn:Eh; [reflexivity|].
    apply exec_port.
    destruct (snd (Py.span host_char s)) as [|x r] eqn:Er; [now left|].
    right. exists r. apply span_rest_head, host_char_false in Er.
    apply Ascii.eqb_eq in Er. now subst.
  - right. intros s' g'. rewrite exec_Opt.
    now destruct (Re.exec _ s' g' _).
Qed.

Lemma host_groups_spec_Some (c : ascii) (s : string) (g : Re.groups) :
  host_char c = true -> host_groups_spec (String c s) g <> None.
Proof.
  intros H. unfold host_groups_spec. cbn [Py.span]. rewrite H.
  destruct (Py.span host_char s). cbn [fst snd].
  now destruct (port_after _).
Qed.

Lemma host_groups_spec_None (c : ascii) (s : string) (g : Re.groups) :
  host_char c = false -> host_groups_spec (String c s) g = None.
Proof. intros H. unfold host_groups_spec. cbn [Py.span]. now rewrite H. Qed.

(** The groups [HOST_RE] captures from a token are those of its parts. *)
Lemma host_re_groups (tok : string) :
  Re.exec HOST_RE tok [] (fun _ g => Some g)
  = host_groups_spec (token_after_user tok)
      (match token_user tok with Some u => [("user", u)] | None => [] end).
Proof.
  unfold HOST_RE. rewrite exec_Seq, exec_Opt, exec_Seq.
  rewrite exec_group_plus.
  2:{ left. intros c s' g' Hc. rewrite exec_Lit.
      fold (user_char c) in Hc. now rewrite (user_char_not_at c Hc). }
  fold user_char. cbv beta.
  unfold token_after_user, token_user, split_user.
  destruct (Py.span user_char tok) as [u r]. cbn [fst snd].
  destruct u as [|x u]; [now rewrite exec_host_tail|].
  rewrite exec_Lit.
  destruct r as [|a r]; [now rewrite exec_host_tail|].
  rewrite (Ascii.eqb_sym "@" a).
  destruct (a =? "@")%char; cbn [andb];
    [|rewrite exec_host_tail; now destruct r].
  rewrite !exec_host_tail.
  destruct r as [|c r]; [reflexivity|].
  destruct (host_char c) eqn:Ec; cbn [fst snd].
  - pose proof (host_groups_spec_Some c r [("user", String x u)] Ec) as Hs.
    now destruct (host_groups_spec (String c r) [("user", String x u)]).
  - now rewrite host_groups_spec_None.
Qed.

Lemma parse_host_string_groups (default_port : Z) (tok : string) :
  _parse_host_string default_port tok
  = match Re.exec HOST_RE tok [] (fun _ g => Some g) with
    | Some g =>
        match Re.group_in g "host" with
        | Some (String _ _ as hostname) =>
            match match Re.group_in g "port" with
                  | Some (String _ _ as p) => py_int p
                  | _ => Returns default_port
                  end with
            | Returns port =>
                Returns (py_or (Re.group_in g "user") "netdb", hostname, port)
            | Raises e => Raises e
            end
        | _ => Raises (ValueError ("Invalid host format: " ++ tok))
        end
    | None => Raises (ValueError ("Invalid host format: " ++ tok))
    end.
Proof.
  unfold _parse_host_string, Re.re_match, Re.group.
  change (Re.exec HOST_RE tok [] (fun _ g => Some g))
    with (Re.exec HOST_RE tok []
            (fun s' g => option_map Re.m_groups
                           (Some {| Re.m_rest := s'; Re.m_groups := g |}))).
  rewrite <- (exec_map Re.m_groups HOST_RE tok []
                (fun s' g => Some {| Re.m_rest := s'; Re.m_groups := g |})).
  now destruct (Re.exec HOST_RE tok [] _).
Qed.

Lemma port_after_not_empty (rest d : string) :
  port_after rest = Some d -> exists c d', d = String c d'.
Proof.
  unfold port_after. destruct rest as [|x r]; [discriminate|].
  destruct (fst (Py.span Py.isdecimal r)) as [|c d']; [discriminate|].
  intros [= <-]. eauto.
Qed.

Lemma token_user_not_empty (tok u : string) :
  token_user tok = Some u -> exists c u', u = String c u'.
Proof.
  unfold token_user, split_user.
  destruct (Py.span user_char tok) as [[|c u'] [|a [|x r]]]; try discriminate.
  destruct ((a =? "@")%char && host_char x); [|discriminate].
  intros [= <-]. eauto.
Qed.

(** * Further properties of the code *)

(** ** One supervisor among the others *)

Lemma od_keys_set_cases (k v : string) (d : OrderedDict) :
  (In k (od_keys d) /\ od_keys (od_set k v d) = od_keys d)
  \/ (~ In k (od_keys d) /\ od_keys (od_set k v d) = (od_keys d ++ [k])%list).
Proof.
  unfold od_keys. induction d as [|[k' v'] d IH]; simpl.
  - right. split; [tauto | reflexivity].
  - destruct (String.eqb_spec k' k) as [->|Hne]; simpl.
    + left. split; [now left | reflexivity].
    + destruct IH as [[Hin Heq]|[Hnin Heq]].
      * left. split; [now right | now rewrite Heq].
      * right. split; [tauto | now rewrite Heq].
Qed.

(** X1. A step of the supervisor of one host leaves the entry of every
    other host as it was and keeps the order of the hosts: the keys are
    the same, or the supervisor's own host is added after them. *)
Theorem step_leaves_other_hosts
        (tc : Termcolor.env) (hostname : string) (r : remote) (s : supervisor)
        (ctx : Context) :
  let ctx' := snd (step tc hostname r s ctx) in
  (forall k, k <> hostname ->
             od_get k (host_status ctx') = od_get k (host_status ctx))
  /\ (od_keys (host_status ctx') = od_keys (host_status ctx)
      \/ (~ In hostname (od_keys (host_status ctx))
          /\ od_keys (host_status ctx')
             = (od_keys (host_status ctx) ++ [hostname])%list)).
Proof.
  cbv zeta. destruct (step_writes tc hostname r s) as [H|(v & _ & H)]; rewrite H.
  - split; [reflexivity | now left].
  - cbn [host_status]. split.
    + intros k Hk. now apply od_get_set_other.
    + destruct (od_keys_set_cases hostname v (host_status ctx)) as [[_ E]|[Hn E]];
        [left | right]; auto.
Qed.

(** ** A command that fails *)

Lemma split_head_span (sep : ascii) (s : string) :
  hd "" (Py.split sep s) = fst (Py.span (fun c => negb (c =? sep)%char) s).
Proof.
  induction s as [|c s IH]; [reflexivity|].
  cbn [Py.split Py.span]. destruct (c =? sep)%char; cbn [negb]; [reflexivity|].
  pose proof (split_not_nil sep s) as Hne.
  destruct (Py.split sep s) as [|h t]; [contradiction|].
  destruct (Py.span _ s) as [a b]. cbn [hd fst] in *. now rewrite IH.
Qed.

Lemma span_prefix_all (p : ascii -> bool) (s : string) :
  Py.all_chars p (fst (Py.span p s)) = true.
Proof.
  unfold Py.all_chars. induction s as [|c s IH]; [reflexivity|].
  cbn [Py.span]. destruct (p c) eqn:E; [|reflexivity].
  destruct (Py.span p s) as [a b]. cbn [fst] in *. simpl. now rewrite E.
Qed.

(** X2. A command that exits with a status other than 0 does not end the
    session: the supervisor goes on to the sleep of the poll loop, and
    stores for its host a message that contains [[Error <status>]] and
    the first line of the error stream, which has no newline and is
    followed in the stream by nothing or by a newline. *)
Theorem nonzero_exit_keeps_session
        (tc : Termcolor.env) (hostname : string) (r : remote) (t : nat)
        (res : completed) (ctx : Context) :
  run r t = Returns res ->
  exit_status res <> 0%Z ->
  let summary := hd "" (Py.split Py.LF (stderr res)) in
  step tc hostname r {| sup_pc := Polling; sup_tick := t |} ctx
  = ({| sup_pc := PollSleep; sup_tick := S t |},
     {| host_status := od_set hostname (error_message tc hostname res)
                              (host_status ctx) |})
  /\ Py.contains (error_message tc hostname res)
                 ("[Error " ++ Py.str_of_int (exit_status res) ++ "] " ++ summary)
  /\ Py.all_chars (fun c => negb (c =? Py.LF)%char) summary = true
  /\ exists rest, stderr res = summary ++ rest
                  /\ (rest = "" \/ exists rest', rest = String Py.LF rest').
Proof.
  intros Hrun Hexit summary. split; [|split; [|split]].
  - unfold step, try_except, poll_once, host_set_message, set_host_status,
      bind, await, ret.
    cbn [sup_pc sup_tick]. rewrite Hrun.
    apply Z.eqb_neq in Hexit. rewrite Hexit. reflexivity.
  - unfold error_message. fold summary.
    destruct (colored_contains tc
                ("[Error " ++ Py.str_of_int (exit_status res) ++ "] " ++ summary)
                Termcolor.red) as (pre & post & ->).
    exists (Termcolor.colored tc ("(" ++ hostname ++ ") ") Termcolor.white ++ pre),
      (post ++ Py.nl).
    now rewrite !append_assoc.
  - subst summary. rewrite split_head_span. apply span_prefix_all.
  - subst summary. rewrite split_head_span.
    exists (snd (Py.span (fun c => negb (c =? Py.LF)%char) (stderr res))).
    split; [now rewrite span_append|].
    destruct (snd (Py.span _ (stderr res))) as [|x rest'] eqn:E; [now left|].
    right. exists rest'. apply span_rest_head in E.
    apply negb_false_iff, Ascii.eqb_eq in E. now subst.
Qed.

Lemma nonzero_exit_keeps_session_witness :
  step Termcolor.v1 "node1" broken_host {| sup_pc := Polling; sup_tick := 1 |} Context_init
  = ({| sup_pc := PollSleep; sup_tick := 2 |},
     {| host_status :=
          od_set "node1"
            (error_message Termcolor.v1 "node1"
               {| exit_status := 127; stdout := "";
                  stderr := "gpustat: not found" ++ Py.nl ++ "hint" |})
            (host_status Context_init) |}).
Proof.
  apply (nonzero_exit_keeps_session Termcolor.v1 "node1" broken_host 1
           {| exit_status := 127; stdout := "";
              stderr := "gpustat: not found" ++ Py.nl ++ "hint" |} Context_init).
  - reflexivity.
  - discriminate.
Defined.

(** ** Recovery, cancellation and a healthy host *)

Lemma step_connect_returns (tc : Termcolor.env) (hostname : string) (r : remote)
      (t : nat) (ctx : Context) :
  connect r t = Returns tt ->
  step tc hostname r {| sup_pc := Connecting; sup_tick := t |} ctx
  = ({| sup_pc := Polling; sup_tick := S t |}, ctx).
Proof.
  intros H. unfold step, try_except, bind, await, ret. cbn [sup_pc sup_tick].
  now rewrite H.
Qed.

Lemma step_poll_success (tc : Termcolor.env) (hostname : string) (r : remote)
      (t : nat) (res : completed) (ctx : Context) :
  run r t = Returns res -> exit_status res = 0%Z ->
  step tc hostname r {| sup_pc := Polling; sup_tick := t |} ctx
  = ({| sup_pc := PollSleep; sup_tick := S t |},
     {| host_status := od_set hostname (success_text res) (host_status ctx) |}).
Proof.
  intros Hrun Hexit.
  unfold step, try_except, poll_once, set_host_status, bind, await, ret.
  cbn [sup_pc sup_tick]. rewrite Hrun, Hexit. reflexivity.
Qed.

Lemma step_poll_sleep (tc : Termcolor.env) (hostname : string) (r : remote)
      (t : nat) (ctx : Context) :
  sleep r t = Returns tt ->
  step tc hostname r {| sup_pc := PollSleep; sup_tick := t |} ctx
  = ({| sup_pc := Polling; sup_tick := S t |}, ctx).
Proof.
  intros H. unfold step, try_except, bind, await, ret. cbn [sup_pc sup_tick].
  now rewrite H.
Qed.

(** X3. A supervisor that waits in its back-off sleep recovers as soon as
    the host does: when the sleep returns, the connection succeeds and
    the command exits with status 0, three steps later the entry of the
    host is the text of that output, whatever failure message was there. *)
Theorem supervisor_recovers
        (tc : Termcolor.env) (hostname : string) (r : remote) (t : nat)
        (res : completed) (ctx : Context) :
  sleep r t = Returns tt ->
  connect r (S t) = Returns tt ->
  run r (S (S t)) = Returns res ->
  exit_status res = 0%Z ->
  fst (steps tc hostname r 3 {| sup_pc := Backoff; sup_tick := t |} ctx)
  = {| sup_pc := PollSleep; sup_tick := 3 + t |}
  /\ od_get hostname
       (host_status (snd (steps tc hostname r 3
                                {| sup_pc := Backoff; sup_tick := t |} ctx)))
     = Some (success_text res).
Proof.
  intros Hs Hc Hr He. cbn [steps].
  rewrite (step_backoff _ _ _ _ _ Hs), (step_connect_returns _ _ _ _ _ Hc),
    (step_poll_success _ _ _ _ _ _ Hr He).
  cbn [fst snd host_status]. split; [reflexivity | apply od_get_set_same].
Qed.

Lemma supervisor_recovers_witness :
  fst (steps Termcolor.v1 "node1" flaky_host 3 {| sup_pc := Backoff; sup_tick := 1 |}
             {| host_status :=
                  [("node1", failure_message Termcolor.v1 "node1"
                               (mkexc "ConnectionRefusedError"
                                      "[Errno 111] Connect call failed" true))] |})
  = {| sup_pc := PollSleep; sup_tick := 3 + 1 |}
  /\ od_get "node1"
       (host_status
          (snd (steps Termcolor.v1 "node1" flaky_host 3
                      {| sup_pc := Backoff; sup_tick := 1 |}
                      {| host_status :=
                           [("node1", failure_message Termcolor.v1 "node1"
                                        (mkexc "ConnectionRefusedError"
                                               "[Errno 111] Connect call failed" true))] |})))
     = Some (success_text {| exit_status := 0; stdout := "gpu0" ++ Py.nl; stderr := "" |}).
Proof.
  apply (supervisor_recovers Termcolor.v1 "node1" flaky_host 1
           {| exit_status := 0; stdout := "gpu0" ++ Py.nl; stderr := "" |});
    reflexivity.
Defined.

(** X4. Cancellation writes nothing: when the call a supervisor is
    suspended at raises an exception that is not an [Exception], such as
    [CancelledError], the supervisor leaves [run_client] with it, the
    context is as it was, and it stays so. *)
Theorem cancellation_writes_nothing
        (tc : Termcolor.env) (hostname : string) (r : remote) (s : supervisor)
        (e : pyexc) (n : nat) (ctx : Context) :
  awaited_raises r s e ->
  exc_is_Exception e = false ->
  sup_pc (fst (steps tc hostname r (S n) s ctx)) = Terminated e
  /\ snd (steps tc hostname r (S n) s ctx) = ctx.
Proof.
  intros Hraise He.
  assert (Hstep : step tc hostname r s ctx
                  = ({| sup_pc := Terminated e; sup_tick := S (sup_tick s) |}, ctx)).
  { destruct s as [p t]. unfold awaited_raises in Hraise.
    unfold step, try_except, poll_once, bind, await, ret, raise.
    cbn [sup_pc sup_tick] in *.
    destruct p; try contradiction; rewrite Hraise; try rewrite He; reflexivity. }
  cbn [steps]. rewrite Hstep. clear Hstep Hraise.
  generalize (S (sup_tick s)) as t. induction n as [|n IH]; intros t.
  - split; reflexivity.
  - cbn [steps]. rewrite step_terminated. apply IH.
Qed.

Lemma cancellation_writes_nothing_witness :
  sup_pc (fst (steps Termcolor.v1 "node1" broken_host 3
                     {| sup_pc := PollSleep; sup_tick := 4 |}
                     {| host_status := [("node1", "busy")] |}))
  = Terminated CancelledError
  /\ snd (steps Termcolor.v1 "node1" broken_host 3
                {| sup_pc := PollSleep; sup_tick := 4 |}
                {| host_status := [("node1", "busy")] |})
     = {| host_status := [("node1", "busy")] |}.
Proof.
  apply (cancellation_writes_nothing Termcolor.v1 "node1" broken_host
           {| sup_pc := PollSleep; sup_tick := 4 |} CancelledError 2).
  - reflexivity.
  - reflexivity.
Defined.

Lemma run_client_terminates_witness :
  exists t,
    sleep broken_host t = Raises CancelledError
    \/ (exc_is_Exception CancelledError = false
        /\ (connect broken_host t = Raises CancelledError
            \/ run broken_host t = Raises CancelledError)).
Proof.
  apply (run_client_terminates Termcolor.v1 "node1" broken_host 5 Context_init).
  reflexivity.
Defined.

Section Healthy.

Variable tc : Termcolor.env.
Variable hostname : string.
Variable r : remote.

Hypothesis connects : connect r 0 = Returns tt.
Hypothesis runs : forall t, exists res, run r t = Returns res /\ exit_status res = 0%Z.
Hypothesis sleeps : forall t, sleep r t = Returns tt.

Lemma poll_cycles (k t : nat) (ctx : Context) :
  exists ctx',
    steps tc hostname r (2 * k) {| sup_pc := Polling; sup_tick := t |} ctx
    = ({| sup_pc := Polling; sup_tick := 2 * k + t |}, ctx').
Proof.
  revert t ctx. induction k as [|k IH]; intros t ctx.
  - exists ctx. reflexivity.
  - replace (2 * S k) with (2 + 2 * k) by lia. rewrite steps_add.
    destruct (runs t) as (res & Hr & He).
    cbn [steps]. rewrite (step_poll_success _ _ _ _ _ _ Hr He).
    rewrite (step_poll_sleep _ _ _ _ _ (sleeps (S t))).
    destruct (IH (S (S t))
                 {| host_status := od_set hostname (success_text res)
                                          (host_status ctx) |}) as [ctx' ->].
    exists ctx'. f_equal. f_equal. lia.
Qed.

(** X6. On a host that accepts the connection and whose command always
    exits with status 0, the supervisor connects once and then only
    polls: after its [k]-th poll it waits in the sleep of the poll loop
    and the entry of its host is the text of the output of that poll. *)
Theorem healthy_host_shows_latest_output (k : nat) (ctx : Context) :
  exists res,
    run r (2 * k + 1) = Returns res
    /\ fst (run_client tc hostname r (2 * k + 2) ctx)
       = {| sup_pc := PollSleep; sup_tick := 2 * k + 2 |}
    /\ od_get hostname (host_status (snd (run_client tc hostname r (2 * k + 2) ctx)))
       = Some (success_text res).
Proof.
  destruct (runs (2 * k + 1)) as (res & Hr & He). exists res.
  split; [exact Hr|]. unfold run_client.
  replace (2 * k + 2) with (1 + (2 * k + 1)) by lia.
  rewrite steps_add. cbn [steps Nat.add]. rewrite (step_connect_returns _ _ _ _ _ connects).
  rewrite steps_add. destruct (poll_cycles k 1 ctx) as [ctx' ->].
  cbn [steps]. rewrite (step_poll_success _ _ _ _ _ _ Hr He). cbn [fst snd host_status].
  split; [f_equal; lia | apply od_get_set_same].
Qed.

End Healthy.

Lemma healthy_host_shows_latest_output_witness :
  exists res,
    run healthy_host (2 * 3 + 1) = Returns res
    /\ fst (run_client Termcolor.v1 "node1" healthy_host (2 * 3 + 2) Context_init)
       = {| sup_pc := PollSleep; sup_tick := 2 * 3 + 2 |}
    /\ od_get "node1"
         (host_status (snd (run_client Termcolor.v1 "node1" healthy_host (2 * 3 + 2)
                                       Context_init)))
       = Some (success_text res).
Proof.
  apply (healthy_host_shows_latest_output Termcolor.v1 "node1" healthy_host).
  - reflexivity.
  - intros t. eexists. split; reflexivity.
  - intros t. reflexivity.
Defined.

(** ** Start-up is all or nothing *)

Lemma comprehension_Returns_inv {A B} (f : A -> outcome B) (l : list A) (ys : list B) :
  comprehension f l = Returns ys ->
  length ys = length l
  /\ (forall x, In x l -> exists y, f x = Returns y)
  /\ (forall i x, nth_error l i = Some x ->
                  exists y, f x = Returns y /\ nth_error ys i = Some y).
Proof.
  revert ys. induction l as [|a l IH]; intros ys H; simpl in H.
  - injection H as <-. split; [reflexivity|]. split; [intros x []|].
    intros [|i] x Hx; discriminate.
  - destruct (f a) as [b|e] eqn:Ea; [|discriminate].
    destruct (comprehension f l) as [bs|e]; [|discriminate].
    injection H as <-. destruct (IH bs eq_refl) as (Hlen & Hall & Hnth).
    split; [simpl; now rewrite Hlen|]. split.
    + intros x [<-|Hx]; [now exists b | now apply Hall].
    + intros [|i] x Hx; simpl in Hx.
      * injection Hx as <-. exists b. now split.
      * now apply Hnth.
Qed.

Lemma comprehension_Raises_inv {A B} (f : A -> outcome B) (l : list A) (e : pyexc) :
  comprehension f l = Raises e -> exists x, In x l /\ f x = Raises e.
Proof.
  induction l as [|a l IH]; simpl; [discriminate|].
  destruct (f a) as [b|e'] eqn:Ea.
  - destruct (comprehension f l) as [bs|e'']; [discriminate|].
    intros [= <-]. destruct (IH eq_refl) as (x & Hx & Hf). exists x. split; [now right | exact Hf].
  - intros [= <-]. exists a. split; [now left | exact Ea].
Qed.

Lemma clients_with_dict (d : list (string * string)) (parsed : list (string * string * Z)) :
  comprehension
    (fun e : string * string * Z =>
       let '(username, hostname, port) := e in
       match exec_cmd_for (Some d) hostname with
       | Raises x => Raises x
       | Returns cmd =>
           Returns {| c_hostname := hostname; c_exec_cmd := cmd;
                      c_port := port; c_username := username |}
       end)
    parsed
  = Returns (map (fun e : string * string * Z =>
                    let '(username, hostname, port) := e in
                    {| c_hostname := hostname;
                       c_exec_cmd := match od_get hostname d with
                                     | Some cmd => cmd
                                     | None => "gpustat --color --force-color"
                                     end;
                       c_port := port; c_username := username |})
                 parsed).
Proof.
  induction parsed as [|[[u h] p] parsed IH]; [reflexivity|].
  cbn [comprehension map]. rewrite IH. reflexivity.
Qed.

(** What [spawn_clients] returns and leaves once every token has parsed. *)
Lemma spawn_clients_parsed (tc : Termcolor.env) (hosts : list string)
      (exec_cmds : option (list (string * string))) (default_port : Z)
      (ctx : Context) (p : string * string * Z) (parsed : list (string * string * Z)) :
  comprehension (_parse_host_string default_port) hosts = Returns (p :: parsed) ->
  spawn_clients tc hosts exec_cmds default_port ctx
  = (Returns
       match exec_cmds with
       | Some d =>
           {| started :=
                map (fun e : string * string * Z =>
                       let '(username, hostname, port) := e in
                       {| c_hostname := hostname;
                          c_exec_cmd := match od_get hostname d with
                                        | Some cmd => cmd
                                        | None => "gpustat --color --force-color"
                                        end;
                          c_port := port; c_username := username |})
                    (p :: parsed);
              printed := None |}
       | None =>
           {| started := [];
              printed := Some (AttributeError "'NoneType' object has no attribute 'get'") |}
       end,
     {| host_status :=
          fold_left (fun d h => od_set h (placeholder tc h) d)
                    (map (fun e => snd (fst e)) (p :: parsed)) (host_status ctx) |}).
Proof.
  intros Hc.
  unfold spawn_clients, try_except, bind at 1. unfold await at 1.
  rewrite Hc. unfold bind at 1. unfold await at 1. unfold bind at 1.
  rewrite for_each_placeholders.
  unfold bind, await, ret.
  destruct exec_cmds as [d|].
  - rewrite clients_with_dict. reflexivity.
  - destruct p as [[u h] q]. reflexivity.
Qed.

Lemma spawn_clients_printed (tc : Termcolor.env) (hosts : list string)
      (exec_cmds : option (list (string * string))) (default_port : Z)
      (ctx : Context) :
  exists st,
    eval_M (spawn_clients tc hosts exec_cmds default_port) ctx = Returns st
    /\ (printed st = None
        <-> hosts <> []
            /\ (forall tok, In tok hosts ->
                            exists v, _parse_host_string default_port tok = Returns v)
            /\ exec_cmds <> None)
    /\ (printed st = None -> length (started st) = length hosts)
    /\ (printed st <> None -> started st = []).
Proof.
  destruct (comprehension (_parse_host_string default_port) hosts)
    as [[|p parsed]|e] eqn:Hc.
  - destruct (comprehension_Returns_inv _ _ _ Hc) as (Hlen & _ & _).
    destruct hosts; [|discriminate].
    eexists. split.
    { unfold eval_M, spawn_clients, try_except, bind, await. rewrite Hc. reflexivity. }
    cbn [printed started]. split; [|split]; try discriminate; try reflexivity.
    split; [discriminate | intros [H _]; now destruct H].
  - destruct (comprehension_Returns_inv _ _ _ Hc) as (Hlen & Hall & _).
    eexists. split.
    { unfold eval_M. rewrite (spawn_clients_parsed _ _ _ _ _ _ _ Hc). reflexivity. }
    destruct exec_cmds as [d|]; cbn [printed started].
    + split; [|split].
      * split; [|reflexivity]. intros _. split; [|split; [exact Hall | discriminate]].
        intros ->. discriminate.
      * intros _. now rewrite length_map.
      * intros H. now destruct H.
    + split; [|split]; try discriminate; try reflexivity.
      split; [discriminate | intros (_ & _ & H); now destruct H].
  - destruct (comprehension_Raises_inv _ _ _ Hc) as (x & Hx & Hf).
    pose proof (parse_host_string_raises_Exception _ _ _ Hf) as He.
    eexists. split.
    { unfold eval_M, spawn_clients, try_except, bind, await. rewrite Hc, He.
      reflexivity. }
    cbn [printed started]. split; [|split]; try discriminate; try reflexivity.
    split; [discriminate|]. intros (_ & Hall & _).
    destruct (Hall x Hx) as [v Hv]. congruence.
Qed.

(** X7. Start-up is all or nothing.  By the time [spawn_clients] awaits
    [asyncio.gather], or has caught an exception before that, it has
    either printed no exception and handed [gather] as many supervisors
    as there are tokens, or printed one and launched none; the first
    happens exactly when the host list is not empty, every token parses
    and [exec_cmds] is a dictionary.  What the await of [gather] itself
    raises later, such as [CancelledError] at shutdown, is outside this
    statement. *)
Theorem startup_all_or_nothing
        (tc : Termcolor.env) (hosts : list string)
        (exec_cmds : option (list (string * string))) (default_port : Z)
        (ctx : Context) :
  exists st,
    eval_M (spawn_clients tc hosts exec_cmds default_port) ctx = Returns st
    /\ (printed st = None
        <-> hosts <> []
            /\ (forall tok, In tok hosts ->
                            exists v, _parse_host_string default_port tok = Returns v)
            /\ exec_cmds <> None)
    /\ (printed st = None -> length (started st) = length hosts)
    /\ (printed st <> None -> started st = []).
Proof. apply spawn_clients_printed. Qed.

(** X8. When every token parses, the supervisors are launched in the
    order of the tokens, each with the user, host and port of its token
    and with the command [exec_cmds] has for that host name, or
    ["gpustat --color --force-color"] when it has none. *)
Theorem supervisors_follow_tokens
        (tc : Termcolor.env) (hosts : list string) (d : list (string * string))
        (default_port : Z) (ctx : Context) :
  (forall tok, In tok hosts ->
               exists v, _parse_host_string default_port tok = Returns v) ->
  exists st,
    eval_M (spawn_clients tc hosts (Some d) default_port) ctx = Returns st
    /\ forall i tok,
        nth_error hosts i = Some tok ->
        exists username hostname port,
          _parse_host_string default_port tok = Returns (username, hostname, port)
          /\ nth_error (started st) i
             = Some {| c_hostname := hostname;
                       c_exec_cmd := match od_get hostname d with
                                     | Some cmd => cmd
                                     | None => "gpustat --color --force-color"
                                     end;
                       c_port := port; c_username := username |}.
Proof.
  intros Hall.
  destruct (comprehension_returns _ hosts Hall) as (parsed & Hc & _ & Hnil).
  destruct parsed as [|p parsed].
  - rewrite (Hnil eq_refl).
    eexists. split; [reflexivity|]. intros [|i] tok H; discriminate.
  - eexists. split.
    { unfold eval_M. rewrite (spawn_clients_parsed _ _ _ _ _ _ _ Hc). reflexivity. }
    intros i tok Hi. cbn [started].
    destruct (comprehension_Returns_inv _ _ _ Hc) as (_ & _ & Hnth).
    destruct (Hnth i tok Hi) as ([[u h] q] & Hp & Hy).
    exists u, h, q. split; [exact Hp|].
    now rewrite (map_nth_error _ _ _ Hy).
Qed.

Lemma supervisors_follow_tokens_witness :
  exists st,
    eval_M (spawn_clients Termcolor.v1 ["alice@node1:2222"; "node2"]
                          (Some [("node2", "/opt/gpustat --color --force-color")])
                          22) Context_init = Returns st
    /\ forall i tok,
        nth_error ["alice@node1:2222"; "node2"] i = Some tok ->
        exists username hostname port,
          _parse_host_string 22 tok = Returns (username, hostname, port)
          /\ nth_error (started st) i
             = Some {| c_hostname := hostname;
                       c_exec_cmd :=
                         match od_get hostname
                                 [("node2", "/opt/gpustat --color --force-color")] with
                         | Some cmd => cmd
                         | None => "gpustat --color --force-color"
                         end;
                       c_port := port; c_username := username |}.
Proof.
  apply (supervisors_follow_tokens Termcolor.v1 ["alice@node1:2222"; "node2"]
           [("node2", "/opt/gpustat --color --force-color")] 22 Context_init).
  intros tok [<-|[<-|[]]]; eexists; vm_compute; reflexivity.
Defined.

(** X9. With [exec_cmds] left at [None], the default of [create_app], a
    list of tokens that all parse gets its placeholders but no
    supervisor: the [AttributeError] of [None.get] is caught after the
    placeholders are written, so every host shows its placeholder and
    nothing will replace it. *)
Theorem no_exec_cmds_no_supervisors
        (tc : Termcolor.env) (hosts : list string) (default_port : Z)
        (ctx : Context) (tok0 : string) :
  In tok0 hosts ->
  (forall tok, In tok hosts ->
               exists v, _parse_host_string default_port tok = Returns v) ->
  eval_M (spawn_clients tc hosts None default_port) ctx
  = Returns {| started := [];
               printed := Some (AttributeError
                                  "'NoneType' object has no attribute 'get'") |}
  /\ forall tok username hostname port,
      In tok hosts ->
      _parse_host_string default_port tok = Returns (username, hostname, port) ->
      od_get hostname
             (host_status (exec_M (spawn_clients tc hosts None default_port) ctx))
      = Some (placeholder tc hostname).
Proof.
  intros Hin0 Hall.
  destruct (comprehension_returns _ hosts Hall) as (parsed & Hc & Hmem & Hnil).
  destruct parsed as [|p parsed].
  { rewrite (Hnil eq_refl) in Hin0. destruct Hin0. }
  unfold eval_M, exec_M. rewrite (spawn_clients_parsed _ _ _ _ _ _ _ Hc).
  split; [reflexivity|].
  intros tok u h q Hin Hp. cbn [snd host_status].
  apply placeholders_get. left.
  apply (in_map (fun e => snd (fst e)) (p :: parsed) (u, h, q)). eauto.
Qed.

Lemma no_exec_cmds_no_supervisors_witness :
  eval_M (spawn_clients Termcolor.v1 ["node2"] None 22) Context_init
  = Returns {| started := [];
               printed := Some (AttributeError
                                  "'NoneType' object has no attribute 'get'") |}
  /\ forall tok username hostname port,
      In tok ["node2"] ->
      _parse_host_string 22 tok = Returns (username, hostname, port) ->
      od_get hostname
             (host_status (exec_M (spawn_clients Termcolor.v1 ["node2"] None 22)
                                  Context_init))
      = Some (placeholder Termcolor.v1 hostname).
Proof.
  apply (no_exec_cmds_no_supervisors Termcolor.v1 ["node2"] 22 Context_init "node2").
  - simpl. now left.
  - intros tok [<-|[]]. eexists. vm_compute. reflexivity.
Defined.

(** ** More on host tokens *)

(** The parser returns what it takes from the token. *)
Lemma parse_host_string_endpoint (default_port : Z) (tok : string) :
  _parse_host_string default_port tok = endpoint_of_token "netdb" default_port tok.
Proof.
  rewrite parse_host_string_groups, host_re_groups.
  unfold endpoint_of_token, well_formed, token_host, token_port, host_groups_spec.
  destruct (fst (Py.span host_char (token_after_user tok))) as [|c h]; [reflexivity|].
  cbn [String.eqb negb].
  destruct (port_after _) as [d|] eqn:Ep.
  - destruct (port_after_not_empty _ _ Ep) as (x & d' & ->).
    cbn [Re.group_in String.eqb Ascii.eqb Bool.eqb andb].
    destruct (py_int (String x d')); [|reflexivity].
    destruct (token_user tok) as [u|] eqn:Eu;
      [destruct (token_user_not_empty _ _ Eu) as (y & u' & ->)|]; reflexivity.
  - destruct (token_user tok) as [u|] eqn:Eu;
      [destruct (token_user_not_empty _ _ Eu) as (y & u' & ->)|]; reflexivity.
Qed.

Lemma all_chars_app (p : ascii -> bool) (a b : string) :
  Py.all_chars p (a ++ b) = Py.all_chars p a && Py.all_chars p b.
Proof.
  unfold Py.all_chars. induction a as [|c a IH]; [reflexivity|].
  simpl. now rewrite IH, andb_assoc.
Qed.

Lemma span_all (p : ascii -> bool) (a b : string) :
  Py.all_chars p a = true ->
  (b = "" \/ exists c b', b = String c b' /\ p c = false) ->
  Py.span p (a ++ b) = (a, b).
Proof.
  unfold Py.all_chars. induction a as [|x a IH]; intros Ha Hb.
  - destruct Hb as [->|(c & b' & -> & Hc)]; [reflexivity|].
    simpl. now rewrite Hc.
  - simpl in Ha. apply andb_true_iff in Ha as [Hx Ha].
    simpl. rewrite Hx, (IH Ha Hb). reflexivity.
Qed.

(** The ways [split_user] cuts a token. *)
Lemma split_user_cases (tok : string) :
  split_user tok = (None, tok)
  \/ exists x u c rest,
      split_user tok = (Some (String x u), String c rest)
      /\ host_char c = true
      /\ Py.all_chars user_char (String x u) = true
      /\ tok = String x u ++ "@" ++ String c rest.
Proof.
  unfold split_user.
  pose proof (span_append user_char tok) as Happ.
  pose proof (span_prefix_all user_char tok) as Hall.
  destruct (Py.span user_char tok) as [[|x u] [|a [|c rest]]]; cbn [fst snd] in *;
    try (now left).
  destruct (Ascii.eqb_spec a "@") as [->|]; cbn [andb]; [|now left].
  destruct (host_char c) eqn:Ec; [|now left].
  right. exists x, u, c, rest. repeat split; auto.
Qed.

Lemma token_host_empty (tok : string) :
  token_host tok = "" <-> tok = "" \/ exists r, tok = String ":" r.
Proof.
  unfold token_host, token_after_user.
  destruct (split_user_cases tok) as [->|(x & u & c & rest & -> & Hc & Hu & ->)];
    cbn [snd].
  - destruct tok as [|c r]; [tauto|]. cbn [Py.span].
    destruct (host_char c) eqn:Ec.
    + destruct (Py.span host_char r). cbn [fst]. split; [discriminate|].
      intros [H|[r' H]]; [discriminate|]. injection H as -> _. discriminate.
    + cbn [fst]. split; [|reflexivity]. intros _. right. exists r.
      unfold host_char in Ec. apply negb_false_iff, Ascii.eqb_eq in Ec. now subst.
  - cbn [Py.span]. rewrite Hc. destruct (Py.span host_char rest). cbn [fst].
    split; [discriminate|]. intros [H|[r' H]]; simpl in H; [discriminate H|].
    injection H as -> _. vm_compute in Hu. discriminate Hu.
Qed.











Lemma int_limit_error_is_not_invalid_host (d tok : string) :
  int_limit_error d <> ValueError ("Invalid host format: " ++ tok).
Proof. unfold int_limit_error, ValueError. intros [= H]. Qed.

(** X10. [_parse_host_string] raises [ValueError('Invalid host format:
    ...')] exactly when the token is empty or begins with a colon; its
    only other failure is the [ValueError] of [int] on a port of more
    than 4300 digits; every other text, such as ["@"] or ["a@"], is
    taken as a host. *)
Theorem parse_rejects_only_missing_host (default_port : Z) (tok : string) :
  (_parse_host_string default_port tok
   = Raises (ValueError ("Invalid host format: " ++ tok))
   <-> tok = "" \/ exists r, tok = String ":" r)
  /\ (forall e, _parse_host_string default_port tok = Raises e ->
                e <> ValueError ("Invalid host format: " ++ tok) ->
                exists d, token_port tok = Some d
                          /\ (4300 < String.length d)%nat
                          /\ e = int_limit_error d)
  /\ ((exists e, _parse_host_string default_port tok = Returns e)
      <-> ~ (tok = "" \/ exists r, tok = String ":" r)
          /\ forall d, token_port tok = Some d -> (String.length d <= 4300)%nat).
Proof.
  rewrite parse_host_string_endpoint. unfold endpoint_of_token, well_formed.
  rewrite <- token_host_empty.
  destruct (String.eqb_spec (token_host tok) "") as [E|E]; cbn [negb].
  - split; [tauto|]. split; [intros e [= <-] H; now destruct H|].
    split; [intros [e H]; discriminate | tauto].
  - destruct (token_port tok) as [d|].
    + unfold py_int. destruct (4300 <? String.length d)%nat eqn:L.
      * apply Nat.ltb_lt in L. split; [|split].
        -- split; [|tauto]. intros H. exfalso.
           apply (int_limit_error_is_not_invalid_host d tok). congruence.
        -- intros e [= <-] _. exists d. auto.
        -- split; [intros [e H]; discriminate|].
           intros [_ H]. specialize (H d eq_refl). lia.
      * apply Nat.ltb_ge in L. split; [|split].
        -- split; [discriminate | tauto].
        -- intros e H. discriminate.
        -- split; [|eauto]. intros _. split; [exact E|].
           intros d' [= <-]. exact L.
    + split; [|split].
      * split; [discriminate | tauto].
      * intros e H. discriminate.
      * split; [|eauto]. intros _. split; [exact E | discriminate].
Qed.

Lemma int_of_digits_from (s : string) (acc : Z) :
  (0 <= acc)%Z ->
  (0 <= fold_left (fun a c => 10 * a + Py.digit_val c)
                  (list_ascii_of_string s) acc)%Z.
Proof.
  revert acc. induction s as [|c s IH]; intros acc Hacc; [exact Hacc|].
  cbn [list_ascii_of_string fold_left]. apply IH.
  pose proof (Nat2Z.is_nonneg (Py.ord c - Py.ord "0")) as Hd.
  unfold Py.digit_val. lia.
Qed.

(** X11. In an endpoint [_parse_host_string] returns, the host is not
    empty, holds no colon and is part of the token; the user is not
    empty; and the port is the default port or is not negative. *)
Theorem parsed_endpoint_is_well_shaped
        (default_port : Z) (tok username hostname : string) (port : Z) :
  _parse_host_string default_port tok = Returns (username, hostname, port) ->
  hostname <> ""
  /\ Py.all_chars (fun c => negb (c =? ":")%char) hostname = true
  /\ Py.contains tok hostname
  /\ username <> ""
  /\ (port = default_port \/ (0 <= port)%Z).
Proof.
  rewrite parse_host_string_endpoint. unfold endpoint_of_token, well_formed.
  destruct (String.eqb_spec (token_host tok) "") as [E|E]; cbn [negb];
    [discriminate|].
  intros H.
  assert (Hport : port = default_port \/ (0 <= port)%Z).
  { destruct (token_port tok) as [d|]; [|left; congruence].
    unfold py_int in H. destruct (4300 <? String.length d)%nat; [discriminate|].
    right. injection H as _ _ <-. apply int_of_digits_from. lia. }
  assert (Hrest : username = match token_user tok with Some u => u | None => "netdb" end
                  /\ hostname = token_host tok).
  { destruct (match token_port tok with
              | Some d => py_int d
              | None => Returns default_port
              end); [|discriminate].
    injection H as <- <- _. now split. }
  destruct Hrest as [-> ->].
  split; [exact E|]. split; [apply (span_prefix_all host_char)|]. split; [|split].
  - unfold token_host, token_after_user.
    destruct (split_user_cases tok) as [->|(x & u & c & rest & -> & _ & _ & Htok)];
      cbn [snd].
    + exists "", (snd (Py.span host_char tok)). simpl. now rewrite span_append.
    + exists (String x u ++ "@"), (snd (Py.span host_char (String c rest))).
      rewrite span_append, append_assoc. exact Htok.
  - destruct (token_user tok) as [u|] eqn:Eu; [|discriminate].
    destruct (token_user_not_empty _ _ Eu) as (y & u' & ->). discriminate.
  - exact Hport.
Qed.

Lemma parsed_endpoint_is_well_shaped_witness :
  "node1" <> ""
  /\ Py.all_chars (fun c => negb (c =? ":")%char) "node1" = true
  /\ Py.contains "alice@node1:2222" "node1"
  /\ "alice" <> ""
  /\ (2222%Z = 22%Z \/ (0 <= 2222)%Z).
Proof.
  apply (parsed_endpoint_is_well_shaped 22 "alice@node1:2222" "alice" "node1" 2222).
  vm_compute. reflexivity.
Defined.

Lemma digits_of_uint (d : Decimal.uint) (acc : nat) :
  fold_left (fun a c => 10 * a + Py.digit_val c)%Z
            (list_ascii_of_string (NilEmpty.string_of_uint d)) (Z.of_nat acc)
  = Z.of_nat (Nat.of_uint_acc d acc)
  /\ Py.all_chars Py.isdecimal (NilEmpty.string_of_uint d) = true.
Proof.
  revert acc. unfold Py.all_chars.
  induction d as [|d IH|d IH|d IH|d IH|d IH|d IH|d IH|d IH|d IH|d IH]; intros acc;
    [split; reflexivity|..];
    cbn [NilEmpty.string_of_uint list_ascii_of_string fold_left forallb Nat.of_uint_acc];
    rewrite Nat.tail_mul_spec;
    (split;
     [rewrite <- (proj1 (IH _)); f_equal;
      match goal with
      | |- context [Py.digit_val ?c] =>
          let v := eval vm_compute in (Py.digit_val c) in
          change (Py.digit_val c) with v
      end; lia
     | exact (proj2 (IH 0))]).
Qed.

Lemma str_of_nat_digits (n : nat) :
  Py.int_of_digits (Termcolor.str_of_nat n) = Z.of_nat n
  /\ Py.all_chars Py.isdecimal (Termcolor.str_of_nat n) = true
  /\ Termcolor.str_of_nat n <> "".
Proof.
  unfold Termcolor.str_of_nat, NilZero.string_of_uint, Py.int_of_digits.
  pose proof (DecimalNat.Unsigned.of_to n) as Hn. unfold Nat.of_uint in Hn.
  destruct (Nat.to_uint n) as [|d|d|d|d|d|d|d|d|d|d] eqn:E;
    [simpl in Hn; subst n; repeat split; discriminate|..];
    (split; [change 0%Z with (Z.of_nat 0); rewrite (proj1 (digits_of_uint _ 0));
             now rewrite Hn
            |split; [apply (proj2 (digits_of_uint _ 0)) | discriminate]]).
Qed.

(** X12. Parsing undoes formatting: for a non-empty user of word
    characters and hyphens, a non-empty host without a colon and a port
    number written in at most 4300 digits, the token [user@host:port]
    parses to exactly that user, host and port, and text after the
    digits of the port is ignored; on a port number of more digits
    [int] raises its [ValueError]. *)
Theorem parse_of_formatted_token
        (default_port : Z) (user host rest : string) (port : nat) :
  user <> "" -> Py.all_chars user_char user = true ->
  host <> "" -> Py.all_chars host_char host = true ->
  (rest = "" \/ exists c r, rest = String c r /\ Py.isdecimal c = false) ->
  _parse_host_string default_port
    (user ++ "@" ++ host ++ ":" ++ Termcolor.str_of_nat port ++ rest)
  = if (4300 <? String.length (Termcolor.str_of_nat port))%nat
    then Raises (int_limit_error (Termcolor.str_of_nat port))
    else Returns (user, host, Z.of_nat port).
Proof.
  intros Hu Hua Hh Hha Hrest.
  destruct (str_of_nat_digits port) as (Hint & Hdig & Hne).
  rewrite parse_host_string_endpoint.
  unfold endpoint_of_token, well_formed, token_host, token_port, token_user,
    token_after_user, split_user.
  rewrite (span_all user_char user);
    [|assumption|right; eexists _, _; split; reflexivity].
  destruct user as [|x u]; [contradiction|].
  destruct host as [|c h]; [contradiction|].
  assert (Hc : host_char c = true).
  { unfold Py.all_chars in Hha. simpl in Hha. now apply andb_true_iff in Hha. }
  cbn [append]. rewrite Ascii.eqb_refl, Hc. cbn [andb fst snd].
  change (String c (h ++ String ":" (Termcolor.str_of_nat port ++ rest)))
    with (String c h ++ ":" ++ Termcolor.str_of_nat port ++ rest).
  rewrite (span_all host_char (String c h));
    [|assumption|right; eexists _, _; split; reflexivity].
  cbn [fst snd String.eqb negb port_after append].
  rewrite (span_all Py.isdecimal _ _ Hdig Hrest). cbn [fst].
  destruct (Termcolor.str_of_nat port) as [|y ds]; [contradiction|].
  unfold py_int. destruct (4300 <? String.length (String y ds))%nat; [reflexivity|].
  now rewrite Hint.
Qed.

Lemma parse_of_formatted_token_witness :
  _parse_host_string 22
    ("alice" ++ "@" ++ "node1" ++ ":" ++ Termcolor.str_of_nat 2222 ++ "/x")
  = Returns ("alice", "node1", Z.of_nat 2222).
Proof.
  apply (parse_of_formatted_token 22 "alice" "node1" "/x" 2222).
  - discriminate.
  - reflexivity.
  - discriminate.
  - reflexivity.
  - right. exists "/"%char, "x". split; reflexivity.
Defined.

Lemma span_app_stop (p : ascii -> bool) (a b : string) :
  (b = "" \/ exists c b', b = String c b' /\ p c = false) ->
  Py.span p (a ++ b) = (fst (Py.span p a), snd (Py.span p a) ++ b).
Proof.
  intros Hb. induction a as [|x a IH].
  - destruct Hb as [->|(c & b' & -> & Hc)]; [reflexivity|]. simpl. now rewrite Hc.
  - simpl. destruct (p x); [|reflexivity].
    rewrite IH. now destruct (Py.span p a).
Qed.

Lemma all_chars_span_rest (q p : ascii -> bool) (a : string) :
  Py.all_chars q a = true -> Py.all_chars q (snd (Py.span p a)) = true.
Proof.
  unfold Py.all_chars. induction a as [|x a IH]; intros H; [reflexivity|].
  cbn [Py.span]. destruct (p x); [|exact H].
  simpl in H. apply andb_true_iff in H as [_ H].
  specialize (IH H). now destruct (Py.span p a).
Qed.

Lemma parse_host_without_port (default_port : Z) (host rest : string) :
  host <> "" ->
  Py.all_chars (fun c => host_char c && negb (c =? "@")%char) host = true ->
  (rest = ""
   \/ exists junk, rest = String ":" junk
                   /\ (junk = "" \/ exists c r, junk = String c r /\ Py.isdecimal c = false)) ->
  _parse_host_string default_port (host ++ rest)
  = Returns ("netdb", host, default_port).
Proof.
  intros Hh Hall Hrest.
  assert (Hstop : forall p, p ":"%char = false ->
                            rest = "" \/ exists c b', rest = String c b' /\ p c = false).
  { intros p Hp. destruct Hrest as [->|(junk & -> & _)]; [now left|].
    right. eauto. }
  assert (Hhost : Py.all_chars host_char host = true).
  { unfold Py.all_chars in *. rewrite forallb_forall in *.
    intros c Hc. apply Hall in Hc. now apply andb_true_iff in Hc. }
  assert (Hnoat : Py.all_chars (fun c => negb (c =? "@")%char) host = true).
  { unfold Py.all_chars in *. rewrite forallb_forall in *.
    intros c Hc. apply Hall in Hc. now apply andb_true_iff in Hc. }
  assert (Huser : split_user (host ++ rest) = (None, host ++ rest)).
  { unfold split_user. rewrite (span_app_stop user_char host rest (Hstop _ eq_refl)).
    pose proof (all_chars_span_rest _ user_char host Hnoat) as Hr.
    destruct (fst (Py.span user_char host)) as [|x u]; [reflexivity|].
    destruct (snd (Py.span user_char host)) as [|a r].
    - cbn [append]. destruct Hrest as [->|(junk & -> & _)]; [reflexivity|].
      now destruct junk.
    - unfold Py.all_chars in Hr. simpl in Hr. apply andb_true_iff in Hr as [Ha _].
      apply negb_true_iff in Ha. cbn [append]. rewrite Ha.
      now destruct (r ++ rest). }
  rewrite parse_host_string_endpoint.
  unfold endpoint_of_token, well_formed, token_host, token_port, token_user,
    token_after_user.
  rewrite Huser. cbn [fst snd].
  rewrite (span_all host_char host rest Hhost (Hstop _ eq_refl)). cbn [fst snd].
  destruct host as [|c h]; [contradiction|]. cbn [String.eqb negb].
  destruct Hrest as [->|(junk & -> & [->|(c' & r & -> & Hc')])]; cbn [port_after Py.span].
  - reflexivity.
  - reflexivity.
  - rewrite Hc'. reflexivity.
Qed.

(** X13. A host without [@] and without a colon parses to itself with the
    user ["netdb"] and the default port, and so does the host followed by
    a colon that no digit follows: ["node1:"] and ["node1:ssh"] raise
    nothing. *)
Theorem colon_without_digits_is_ignored
        (default_port : Z) (host junk : string) :
  host <> "" ->
  Py.all_chars (fun c => host_char c && negb (c =? "@")%char) host = true ->
  (junk = "" \/ exists c r, junk = String c r /\ Py.isdecimal c = false) ->
  _parse_host_string default_port host = Returns ("netdb", host, default_port)
  /\ _parse_host_string default_port (host ++ ":" ++ junk)
     = Returns ("netdb", host, default_port).
Proof.
  intros Hh Hall Hjunk. split.
  - rewrite <- (append_nil_r host) at 1.
    apply parse_host_without_port; auto.
  - apply parse_host_without_port; auto. right. exists junk. now split.
Qed.

Lemma colon_without_digits_is_ignored_witness :
  _parse_host_string 22 "node1" = Returns ("netdb", "node1", 22%Z)
  /\ _parse_host_string 22 ("node1" ++ ":" ++ "ssh") = Returns ("netdb", "node1", 22%Z).
Proof.
  apply (colon_without_digits_is_ignored 22 "node1" "ssh").
  - discriminate.
  - reflexivity.
  - right. exists "s"%char, "sh". split; reflexivity.
Defined.

(** ** Escape sequences *)

Lemma star_class_greedy {A} (p : ascii -> bool) (s : string)
      (k : string -> option A) (x : A) :
  k (snd (Py.span p s)) = Some x -> Re.star_class p s k = Some x.
Proof.
  induction s as [|c s IH]; [now intros H|].
  cbn [Re.star_class Py.span]. destruct (p c) eqn:E; [|now intros H].
  intros H. rewrite IH; [reflexivity|]. now destruct (Py.span p s).
Qed.

Lemma match_length_no_escape (c : ascii) (s : string) :
  (c =? Py.ESC)%char = false -> Re.match_length RE_ANSI (String c s) = None.
Proof.
  intros H. unfold Re.match_length, Re.re_match, RE_ANSI.
  rewrite exec_Seq, exec_Lit, Ascii.eqb_sym, H. reflexivity.
Qed.

Lemma exec_Alt {A} (r1 r2 : Re.regex) (s : string) (g : Re.groups)
      (k : string -> Re.groups -> option A) :
  Re.exec (Re.Alt r1 r2) s g k = Re.or_else (Re.exec r1 s g k) (Re.exec r2 s g k).
Proof. reflexivity. Qed.

Lemma exec_Class {A} (p : ascii -> bool) (c : ascii) (s : string) (g : Re.groups)
      (k : string -> Re.groups -> option A) :
  Re.exec (Re.Class p) (String c s) g k = if p c then k s g else None.
Proof. reflexivity. Qed.

Lemma exec_Star {A} (p : ascii -> bool) (s : string) (g : Re.groups)
      (k : string -> Re.groups -> option A) :
  Re.exec (Re.Star p) s g k = Re.star_class p s (fun s' => k s' g).
Proof. reflexivity. Qed.

Lemma star_class_stop {A} (p : ascii -> bool) (c : ascii) (s : string)
      (k : string -> option A) :
  p c = false -> Re.star_class p (String c s) k = k (String c s).
Proof. intros H. cbn [Re.star_class]. now rewrite H. Qed.

Lemma decimal_in_parameter_range (ds : string) :
  Py.all_chars Py.isdecimal ds = true ->
  Py.all_chars (Py.in_range "0" "?") ds = true.
Proof.
  unfold Py.all_chars. rewrite !forallb_forall. intros H c Hc.
  specialize (H c Hc). unfold Py.isdecimal, Py.in_range in *.
  apply andb_true_iff in H as [H1 H2]. apply andb_true_iff.
  apply Nat.leb_le in H1, H2. split; apply Nat.leb_le; [exact H1|].
  change (Py.ord "9") with 57 in H2. change (Py.ord "?") with 63. lia.
Qed.

(** The [SGR] sequence [ESC [ digits m] is matched whole, whatever follows. *)
Lemma match_length_sgr (ds rest : string) :
  Py.all_chars Py.isdecimal ds = true ->
  Re.match_length RE_ANSI (String Py.ESC ("[" ++ ds ++ "m" ++ rest))
  = Some (3 + String.length ds).
Proof.
  intros Hds. unfold Re.match_length, Re.re_match, RE_ANSI.
  rewrite exec_Seq, exec_Lit, Ascii.eqb_refl, exec_Alt.
  change ("[" ++ ds ++ "m" ++ rest) with (String "[" (ds ++ String "m" rest)).
  rewrite exec_Class.
  change (Py.in_range "@" "Z" "[" || Py.in_range "\" "_" "[") with false.
  cbv iota. cbn [Re.or_else].
  rewrite exec_Seq, exec_Lit, Ascii.eqb_refl, exec_Seq, exec_Star.
  erewrite star_class_greedy.
  2:{ rewrite (span_all (Py.in_range "0" "?") ds (String "m" rest)).
      - cbn [snd]. rewrite exec_Seq, exec_Star, star_class_stop by reflexivity.
        rewrite exec_Class. change (Py.in_range "@" "~" "m") with true. reflexivity.
      - now apply decimal_in_parameter_range.
      - right. exists "m"%char, rest. split; reflexivity. }
  cbn [Re.m_rest]. f_equal. cbn [String.length]. rewrite length_append.
  cbn [String.length]. lia.
Qed.

Lemma sub_empty_from_skip (r : Re.regex) (a b : string) :
  Re.sub_empty_from r (String.length a) (a ++ b) = Re.sub_empty_from r 0 b.
Proof. induction a as [|c a IH]; [reflexivity | exact IH]. Qed.

Lemma sub_empty_no_escape (a b : string) :
  no_escape a = true ->
  Re.sub_empty_from RE_ANSI 0 (a ++ b) = a ++ Re.sub_empty_from RE_ANSI 0 b.
Proof.
  unfold no_escape, Py.all_chars. induction a as [|c a IH]; intros H; [reflexivity|].
  simpl in H. apply andb_true_iff in H as [Hc Ha]. apply negb_true_iff in Hc.
  cbn [append Re.sub_empty_from]. rewrite (match_length_no_escape _ _ Hc).
  now rewrite (IH Ha).
Qed.

Lemma sub_empty_sgr (ds rest : string) :
  Py.all_chars Py.isdecimal ds = true ->
  Re.sub_empty_from RE_ANSI 0 (String Py.ESC ("[" ++ ds ++ "m" ++ rest))
  = Re.sub_empty_from RE_ANSI 0 rest.
Proof.
  intros Hds. cbn [Re.sub_empty_from]. rewrite (match_length_sgr _ _ Hds).
  cbn [Nat.add].
  replace (S (S (String.length ds))) with (String.length ("[" ++ ds ++ "m")).
  - replace ("[" ++ ds ++ "m" ++ rest) with (("[" ++ ds ++ "m") ++ rest)
      by (now rewrite !append_assoc).
    apply sub_empty_from_skip.
  - cbn [append String.length]. rewrite length_append. cbn [String.length]. lia.
Qed.

Lemma sub_empty_colored
      (tc : Termcolor.env) (text : string) (c : Termcolor.color) (rest : string) :
  no_escape text = true ->
  Re.sub_empty_from RE_ANSI 0 (Termcolor.colored tc text c ++ rest)
  = text ++ Re.sub_empty_from RE_ANSI 0 rest.
Proof.
  intros Ht. unfold Termcolor.colored.
  destruct (Termcolor.can_colour tc); [|now apply sub_empty_no_escape].
  destruct (str_of_nat_digits (Termcolor.COLORS tc c)) as (_ & Hds & _).
  replace ((String Py.ESC "[" ++ Termcolor.str_of_nat (Termcolor.COLORS tc c)
            ++ "m" ++ text ++ Termcolor.RESET) ++ rest)
    with (String Py.ESC ("[" ++ Termcolor.str_of_nat (Termcolor.COLORS tc c)
                         ++ "m" ++ text
                         ++ String Py.ESC ("[" ++ "0" ++ "m" ++ rest)))
    by (unfold Termcolor.RESET; rewrite !append_assoc; reflexivity).
  rewrite (sub_empty_sgr _ _ Hds), (sub_empty_no_escape _ _ Ht).
  now rewrite (sub_empty_sgr "0" rest eq_refl).
Qed.

(** X14. [RE_ANSI] removes what termcolor adds: deleting its matches from
    a coloured text that holds no escape character of its own gives the
    text back, whether colours are on or off and whatever follows. *)
Theorem plain_undoes_colored
        (tc : Termcolor.env) (text : string) (c : Termcolor.color) (rest : string) :
  no_escape text = true ->
  Re.sub_empty RE_ANSI (Termcolor.colored tc text c ++ rest)
  = text ++ Re.sub_empty RE_ANSI rest.
Proof. apply sub_empty_colored. Qed.

Lemma plain_undoes_colored_witness :
  Re.sub_empty RE_ANSI (Termcolor.colored Termcolor.v1 "(node1) " Termcolor.white
                        ++ "Loading ...")
  = "(node1) " ++ Re.sub_empty RE_ANSI "Loading ...".
Proof.
  apply (plain_undoes_colored Termcolor.v1 "(node1) " Termcolor.white "Loading ...").
  reflexivity.
Defined.

Lemma no_escape_app (a b : string) :
  no_escape (a ++ b) = no_escape a && no_escape b.
Proof. apply all_chars_app. Qed.

Lemma sub_empty_message (tc : Termcolor.env) (h inner : string) (coloured : bool)
      (rest : string) :
  no_escape h = true -> no_escape inner = true ->
  Re.sub_empty_from RE_ANSI 0
    ((Termcolor.colored tc ("(" ++ h ++ ") ") Termcolor.white
      ++ (if coloured then Termcolor.colored tc inner Termcolor.red else inner)
      ++ Py.nl) ++ rest)
  = ("(" ++ h ++ ") " ++ inner ++ Py.nl) ++ Re.sub_empty_from RE_ANSI 0 rest.
Proof.
  intros Hh Hi. rewrite !append_assoc. rewrite sub_empty_colored.
  2:{ rewrite !no_escape_app, Hh. reflexivity. }
  assert (H : Re.sub_empty_from RE_ANSI 0
                ((if coloured then Termcolor.colored tc inner Termcolor.red else inner)
                 ++ Py.nl ++ rest)
              = inner ++ Py.nl ++ Re.sub_empty_from RE_ANSI 0 rest).
  { destruct coloured;
      [rewrite sub_empty_colored by assumption
      |rewrite (sub_empty_no_escape inner _ Hi)];
      now rewrite (sub_empty_no_escape Py.nl rest eq_refl). }
  rewrite H. now rewrite !append_assoc.
Qed.

Lemma render_plain_snapshot (ansi_convert : string -> bool -> string)
      (full : bool) (nodes : option (list string)) (ctx : Context) :
  eval_M (render_gpustat_body ansi_convert "plain" full nodes) ctx
  = Returns (Re.sub_empty RE_ANSI
               (Py.join "" (map snd (snapshot nodes (host_status ctx))))).
Proof.
  unfold eval_M, render_gpustat_body, bind, get_host_status, ret.
  cbn [fst]. now rewrite render_loop_snapshot.
Qed.

(** X15. The plain rendering shows the messages of the program without
    their colours: for a store of host messages, coloured like the
    failure messages or not like the placeholder, whose host names and
    texts hold no escape character, the body of [/gpustat.txt] is the
    lines [(host) text] one after the other. *)
Theorem plain_rendering_of_messages
        (tc : Termcolor.env) (ansi_convert : string -> bool -> string)
        (full : bool) (entries : list (string * string * bool)) :
  (forall h inner coloured,
      In (h, inner, coloured) entries ->
      no_escape h = true /\ no_escape inner = true) ->
  eval_M (render_gpustat_body ansi_convert "plain" full None)
         {| host_status :=
              map (fun e : string * string * bool =>
                     let '(h, inner, coloured) := e in
                     (h, Termcolor.colored tc ("(" ++ h ++ ") ") Termcolor.white
                         ++ (if coloured then Termcolor.colored tc inner Termcolor.red
                             else inner)
                         ++ Py.nl))
                  entries |}
  = Returns (Py.join "" (map (fun e : string * string * bool =>
                                let '(h, inner, _) := e in
                                "(" ++ h ++ ") " ++ inner ++ Py.nl)
                             entries)).
Proof.
  intros Hall.
  rewrite render_plain_snapshot. cbn [host_status]. f_equal. rewrite snapshot_all.
  2:{ intros h s Hin. apply in_map_iff in Hin as ([[h' inner] b] & [= <- <-] & _).
      apply ends_with_newline_not_empty.
      destruct b; apply host_message_ends_with_newline. }
  unfold Re.sub_empty. induction entries as [|[[h inner] b] entries IH]; [reflexivity|].
  cbn [map snd]. rewrite !join_cons.
  destruct (Hall h inner b (or_introl eq_refl)) as [Hh Hi].
  rewrite (sub_empty_message tc h inner b _ Hh Hi). f_equal.
  apply IH. intros h' i' b' Hin. apply (Hall h' i' b'). now right.
Qed.

Lemma plain_rendering_of_messages_witness :
  eval_M (render_gpustat_body no_markup "plain" true None)
         {| host_status :=
              map (fun e : string * string * bool =>
                     let '(h, inner, coloured) := e in
                     (h, Termcolor.colored Termcolor.v1 ("(" ++ h ++ ") ") Termcolor.white
                         ++ (if coloured
                             then Termcolor.colored Termcolor.v1 inner Termcolor.red
                             else inner)
                         ++ Py.nl))
                  [("node1", "Loading ...", false);
                   ("node2", "TimeoutError: ", true)] |}
  = Returns (Py.join "" (map (fun e : string * string * bool =>
                                let '(h, inner, _) := e in
                                "(" ++ h ++ ") " ++ inner ++ Py.nl)
                             [("node1", "Loading ...", false);
                              ("node2", "TimeoutError: ", true)])).
Proof.
  apply (plain_rendering_of_messages Termcolor.v1 no_markup true).
  intros h inner coloured [[= <- <- <-]|[[= <- <- <-]|[]]]; split; reflexivity.
Defined.

Lemma no_escape_join (l : list string) :
  (forall s, In s l -> no_escape s = true) -> no_escape (Py.join "" l) = true.
Proof.
  induction l as [|x l IH]; intros H; [reflexivity|].
  rewrite join_cons, no_escape_app, (H x (or_introl eq_refl)).
  apply IH. intros s Hs. apply H. now right.
Qed.

(** X16. On a store whose texts hold no escape character the plain
    rendering is the raw rendering, for every filter. *)
Theorem plain_is_raw_without_escapes
        (ansi_convert : string -> bool -> string) (full : bool)
        (nodes : option (list string)) (ctx : Context) :
  (forall h s, In (h, s) (host_status ctx) -> no_escape s = true) ->
  eval_M (render_gpustat_body ansi_convert "plain" full nodes) ctx
  = eval_M (render_gpustat_body ansi_convert "ansi" full nodes) ctx.
Proof.
  intros Hall.
  rewrite render_plain_snapshot, render_ansi_snapshot. f_equal. unfold Re.sub_empty.
  rewrite <- (append_nil_r (Py.join "" _)) at 1.
  rewrite sub_empty_no_escape; [now rewrite append_nil_r|].
  apply no_escape_join. intros s Hs.
  apply in_map_iff in Hs as ([h s'] & <- & Hin).
  apply snapshot_In in Hin as [Hin _]. now apply (Hall h).
Qed.

Lemma plain_is_raw_without_escapes_witness :
  eval_M (render_gpustat_body no_markup "plain" true (Some ["node1"]))
         {| host_status := [("node1", "busy")] |}
  = eval_M (render_gpustat_body no_markup "ansi" true (Some ["node1"]))
           {| host_status := [("node1", "busy")] |}.
Proof.
  apply (plain_is_raw_without_escapes no_markup true (Some ["node1"])).
  intros h s [[= <- <-]|[]]. reflexivity.
Defined.

(** ** Filters *)

Lemma in_filter_ext (l l' : list string) (k : string) :
  (In k l <-> In k l') -> in_filter (Some l) k = in_filter (Some l') k.
Proof.
  intros H. apply eq_true_iff_eq. rewrite !in_filter_spec.
  split; intros Hl x [= <-]; [apply H, (Hl l) | apply H, (Hl l')]; reflexivity.
Qed.

Lemma snapshot_ext (l l' : list string) (d : OrderedDict) :
  (forall k, In k (od_keys d) -> (In k l <-> In k l')) ->
  snapshot (Some l) d = snapshot (Some l') d.
Proof.
  unfold snapshot, od_keys. induction d as [|[k v] d IH]; intros H; [reflexivity|].
  cbn [filter fst snd].
  rewrite (in_filter_ext l l' k) by (apply H; now left).
  rewrite IH; [reflexivity|]. intros k' Hk'. apply H. now right.
Qed.

(** X17. Only membership in the filter counts: two filters that name the
    same hosts of the store give the same response in every format, so
    the order of the names, repeated names and names of unknown hosts
    change nothing, and the blocks always come in the order of the
    store. *)
Theorem filter_is_a_set
        (ansi_convert : string -> bool -> string) (mode : string) (full : bool)
        (l l' : list string) (ctx : Context) :
  (forall k, In k (od_keys (host_status ctx)) -> (In k l <-> In k l')) ->
  render_gpustat_body ansi_convert mode full (Some l) ctx
  = render_gpustat_body ansi_convert mode full (Some l') ctx.
Proof.
  intros H. unfold render_gpustat_body, bind, get_host_status.
  now rewrite !render_loop_snapshot, (snapshot_ext l l' _ H).
Qed.

Lemma filter_is_a_set_witness :
  render_gpustat_body no_markup "ansi" true (Some ["b"; "a"; "ghost"; "b"])
                      {| host_status := [("a", "1"); ("b", "2"); ("c", "3")] |}
  = render_gpustat_body no_markup "ansi" true (Some ["a"; "b"])
                        {| host_status := [("a", "1"); ("b", "2"); ("c", "3")] |}.
Proof.
  apply (filter_is_a_set no_markup "ansi" true ["b"; "a"; "ghost"; "b"] ["a"; "b"]).
  intros k [<-|[<-|[<-|[]]]]; simpl; intuition congruence.
Defined.

Lemma snapshot_skip (k k' v : string) (d : OrderedDict) :
  k' <> k -> snapshot (Some [k]) ((k', v) :: d) = snapshot (Some [k]) d.
Proof.
  intros H. unfold snapshot. cbn [filter fst snd in_filter existsb].
  apply String.eqb_neq in H. now rewrite H, andb_false_r.
Qed.

Lemma filtered_bodies (ansi_convert : string -> bool -> string) (full : bool)
      (ctx : Context) (ks : list string) (bodies : list string) :
  map Returns bodies
  = map (fun k => eval_M (render_gpustat_body ansi_convert "ansi" full (Some [k])) ctx) ks ->
  bodies = map (fun k => Py.join "" (map snd (snapshot (Some [k]) (host_status ctx)))) ks.
Proof.
  revert bodies. induction ks as [|k ks IH]; intros [|b bodies] Hb;
    try discriminate; [reflexivity|].
  cbn [map] in *. rewrite render_ansi_snapshot in Hb.
  injection Hb as -> Hb. f_equal. now apply IH.
Qed.

Lemma snapshot_cons (nodes : option (list string)) (k v : string) (d : OrderedDict) :
  snapshot nodes ((k, v) :: d)
  = ((if negb (v =? "") && in_filter nodes k then [(k, v)] else [])
       ++ snapshot nodes d)%list.
Proof.
  unfold snapshot. cbn [filter fst snd].
  now destruct (negb (v =? "") && in_filter nodes k).
Qed.

Lemma join_by_host (d : OrderedDict) :
  NoDup (map fst d) ->
  Py.join "" (map snd (snapshot None d))
  = Py.join "" (map (fun k => Py.join "" (map snd (snapshot (Some [k]) d))) (map fst d)).
Proof.
  induction d as [|[k v] d IH]; intros Hwf; [reflexivity|].
  inversion Hwf as [|? ? Hnotin Hnd]; subst.
  cbn [map fst]. rewrite join_cons.
  replace (map (fun k0 => Py.join "" (map snd (snapshot (Some [k0]) ((k, v) :: d))))
               (map fst d))
    with (map (fun k0 => Py.join "" (map snd (snapshot (Some [k0]) d))) (map fst d)).
  2:{ apply map_ext_in. intros k0 Hk0. rewrite snapshot_skip; [reflexivity|].
      intros ->. now apply Hnotin. }
  rewrite <- (IH Hnd), !snapshot_cons, (snapshot_other_hosts k d Hnotin).
  cbn [in_filter existsb]. rewrite String.eqb_refl. cbn [orb]. rewrite !andb_true_r.
  destruct (negb (v =? "")); cbn [app map snd]; [|reflexivity].
  rewrite join_cons. reflexivity.
Qed.

(** X18. The unfiltered raw rendering is made of the blocks of the
    hosts: it is the renderings filtered to one host each, put one after
    the other in the order of the store. *)
Theorem rendering_splits_by_host
        (ansi_convert : string -> bool -> string) (full : bool) (ctx : Context)
        (bodies : list string) :
  od_wf (host_status ctx) ->
  map Returns bodies
  = map (fun k => eval_M (render_gpustat_body ansi_convert "ansi" full (Some [k])) ctx)
        (od_keys (host_status ctx)) ->
  eval_M (render_gpustat_body ansi_convert "ansi" full None) ctx
  = Returns (Py.join "" bodies).
Proof.
  intros Hwf Hb. rewrite (filtered_bodies _ _ _ _ _ Hb).
  rewrite render_ansi_snapshot. f_equal. now apply join_by_host.
Qed.

Lemma rendering_splits_by_host_witness :
  eval_M (render_gpustat_body no_markup "ansi" true None)
         {| host_status := [("a", "1"); ("b", ""); ("c", "3")] |}
  = Returns (Py.join "" ["1"; ""; "3"]).
Proof.
  apply (rendering_splits_by_host no_markup true
           {| host_status := [("a", "1"); ("b", ""); ("c", "3")] |} ["1"; ""; "3"]).
  - unfold od_wf. simpl. repeat constructor; simpl; intuition discriminate.
  - reflexivity.
Defined.

(** ** The order of the hosts *)

Lemma placeholders_keys (tc : Termcolor.env) (names : list string) (d : OrderedDict) :
  NoDup (od_keys d ++ names)%list ->
  od_keys (fold_left (fun d h => od_set h (placeholder tc h) d) names d)
  = (od_keys d ++ names)%list.
Proof.
  revert d. induction names as [|a names IH]; intros d Hnd; cbn [fold_left].
  - now rewrite app_nil_r.
  - destruct (od_keys_set_cases a (placeholder tc a) d) as [[Hin _]|[_ Hk]].
    + exfalso. apply NoDup_remove_2 in Hnd. apply Hnd, in_or_app. now left.
    + rewrite IH; rewrite Hk, <- app_assoc; [reflexivity | exact Hnd].
Qed.

Lemma launched_is_configured (tc : Termcolor.env) (hosts : list string)
      (exec_cmds : option (list (string * string))) (default_port : Z) (c : client) :
  In c (launched tc hosts exec_cmds default_port) ->
  In (c_hostname c) (configured default_port hosts).
Proof.
  unfold launched, configured, eval_M.
  destruct (comprehension (_parse_host_string default_port) hosts)
    as [[|p parsed]|e] eqn:Hc.
  - unfold spawn_clients, try_except, bind, await. rewrite Hc. intros [].
  - rewrite (spawn_clients_parsed _ _ _ _ _ _ _ Hc). cbn [fst].
    destruct exec_cmds as [d|]; cbn [started]; [|intros []].
    intros Hin. apply in_map_iff in Hin as ([[u h] q] & <- & Hin).
    cbn [c_hostname]. now apply (in_map (fun e => snd (fst e)) _ (u, h, q)).
  - unfold spawn_clients, try_except, bind, await. rewrite Hc.
    destruct (exc_is_Exception e); intros [].
Qed.

(** X19. The hosts keep the order of the configuration: when the host
    names of the configured tokens are distinct, the keys of the store
    are, in every context the program reaches from the empty one, these
    names in the order of the tokens; no host is added, dropped or
    moved. *)
Theorem store_keeps_configured_order
        (tc : Termcolor.env) (hosts : list string)
        (exec_cmds : option (list (string * string))) (default_port : Z)
        (ctx : Context) :
  NoDup (configured default_port hosts) ->
  reachable tc hosts exec_cmds default_port ctx ->
  od_keys (host_status ctx) = configured default_port hosts.
Proof.
  intros Hnd. induction 1 as [|ctx c r s Hreach IH Hc].
  - rewrite spawn_clients_store. now rewrite placeholders_keys.
  - destruct (step_writes tc (c_hostname c) r s) as [H|(v & _ & H)]; rewrite H;
      [exact IH|].
    cbn [host_status].
    destruct (od_keys_set_cases (c_hostname c) v (host_status ctx)) as [[_ E]|[Hn _]].
    + now rewrite E.
    + exfalso. apply Hn. rewrite IH. now apply (launched_is_configured tc _ exec_cmds).
Qed.

Lemma store_keeps_configured_order_witness :
  od_keys (host_status
             (snd (step Termcolor.v1 "node1" unreachable_host
                        {| sup_pc := Connecting; sup_tick := 0 |}
                        (exec_M (spawn_clients Termcolor.v1 ["alice@node1:2222"; "node2"]
                                               (Some []) 22) Context_init))))
  = configured 22 ["alice@node1:2222"; "node2"].
Proof.
  apply (store_keeps_configured_order
           Termcolor.v1 ["alice@node1:2222"; "node2"] (Some []) 22).
  - vm_compute. repeat constructor; simpl; intuition discriminate.
  - apply (reach_step Termcolor.v1 ["alice@node1:2222"; "node2"] (Some []) 22 _
             {| c_hostname := "node1"; c_exec_cmd := "gpustat --color --force-color";
                c_port := 2222; c_username := "alice" |}).
    + apply reach_startup.
    + vm_compute. left. reflexivity.
Defined.

(** ** The routes *)

(** X20. No request to a static route, and no websocket payload whose
    [nodes] entry is a string or is missing, can make the renderer raise
    or change the store: each route of [create_app] asks for a supported
    format, so the handler returns a body and leaves the context as it
    was, whatever the [full] flag and the [nodes] value are. *)
Theorem routes_never_raise
        (ansi_convert : string -> bool -> string) (path content_type : string)
        (full : bool) (nodes : option string) (ctx : Context) :
  In (path, content_type) static_routes ->
  (exists body,
      static_handler ansi_convert content_type full nodes ctx = (Returns body, ctx))
  /\ (exists body, websocket_message ansi_convert nodes ctx = (Returns body, ctx)).
Proof.
  intros Hin. split.
  - destruct Hin as [[= <- <-]|[[= <- <-]|[[= <- <-]|[]]]]; eexists; reflexivity.
  - eexists. reflexivity.
Qed.

Lemma routes_never_raise_witness :
  (exists body,
      static_handler no_markup "plain" false (Some "node1,ghost")
                     {| host_status := [("node1", "busy")] |}
      = (Returns body, {| host_status := [("node1", "busy")] |}))
  /\ (exists body,
         websocket_message no_markup (Some "node1,ghost")
                           {| host_status := [("node1", "busy")] |}
         = (Returns body, {| host_status := [("node1", "busy")] |})).
Proof.
  apply (routes_never_raise no_markup "/gpustat.txt" "plain" false (Some "node1,ghost")).
  simpl. right. right. left. reflexivity.
Defined.

(** ** The [--exec] options of [main] *)

Lemma split_once_colon (ip cmd : string) :
  Py.all_chars host_char ip = true ->
  split_once ":" (ip ++ ":" ++ cmd) = [ip; cmd].
Proof.
  intros H. unfold split_once. fold host_char.
  rewrite (span_all host_char ip (":" ++ cmd) H); [reflexivity|].
  right. exists ":"%char, cmd. split; reflexivity.
Qed.

Lemma split_once_no_colon (entry : string) :
  Py.all_chars host_char entry = true -> split_once ":" entry = [entry].
Proof.
  intros H. unfold split_once. fold host_char.
  rewrite <- (append_nil_r entry) at 1.
  rewrite (span_all host_char entry "" H); [reflexivity | now left].
Qed.

Lemma split_once_cases (entry : string) :
  split_once ":" entry = [entry] /\ Py.all_chars host_char entry = true
  \/ exists ip cmd, split_once ":" entry = [ip; cmd] /\ entry = ip ++ ":" ++ cmd
                    /\ Py.all_chars host_char ip = true.
Proof.
  unfold split_once. fold host_char.
  pose proof (span_append host_char entry) as Happ.
  pose proof (span_prefix_all host_char entry) as Hall.
  destruct (Py.span host_char entry) as [a b] eqn:E. cbn [fst snd] in *.
  destruct b as [|c r].
  - left. rewrite append_nil_r in Happ. subst a. now split.
  - right. exists a, r. split; [reflexivity|]. split; [|exact Hall].
    assert (Hc : host_char c = false).
    { apply (span_rest_head host_char entry c r). now rewrite E. }
    apply host_char_false, Ascii.eqb_eq in Hc. now subst.
Qed.

Lemma od_get_app (k : string) (l1 l2 : OrderedDict) :
  od_get k (l1 ++ l2)%list
  = match od_get k l1 with
    | Some v => Some v
    | None => od_get k l2
    end.
Proof.
  induction l1 as [|[k' v'] l1 IH]; [reflexivity|].
  simpl. now destruct (k' =? k).
Qed.

Lemma exec_cmds_loop_pairs (pairs : list (string * string)) (d : OrderedDict) :
  (forall ip cmd, In (ip, cmd) pairs -> Py.all_chars host_char ip = true) ->
  exec_cmds_loop (map (fun e => fst e ++ ":" ++ snd e) pairs) d
  = Returns (fold_left (fun d e => od_set (fst e) (snd e ++ " --color --force-color") d)
                       pairs d).
Proof.
  revert d. induction pairs as [|[ip cmd] pairs IH]; intros d H; [reflexivity|].
  cbn [map exec_cmds_loop fst snd fold_left].
  rewrite split_once_colon by (apply (H ip cmd); now left).
  apply IH. intros ip' cmd' Hin. apply (H ip' cmd'). now right.
Qed.

Lemma od_get_fold_set (pairs : list (string * string)) (d : OrderedDict) (k : string) :
  od_get k (fold_left (fun d e => od_set (fst e) (snd e ++ " --color --force-color") d)
                      pairs d)
  = match od_get k (rev pairs) with
    | Some cmd => Some (cmd ++ " --color --force-color")
    | None => od_get k d
    end.
Proof.
  revert d. induction pairs as [|[ip cmd] pairs IH]; intros d; [reflexivity|].
  cbn [fold_left rev fst snd]. rewrite IH, od_get_app.
  destruct (od_get k (rev pairs)); [reflexivity|].
  cbn [od_get]. destruct (String.eqb_spec ip k) as [->|Hne].
  - apply od_get_set_same.
  - now apply od_get_set_other.
Qed.

(** X21. Of the [--exec] options [ip:cmd] of [main], the last one given
    for an [ip] wins, and its command is stored with
    [" --color --force-color"] appended; the command is everything after
    the first colon, so it may hold colons itself. *)
Theorem last_exec_option_wins (pairs : list (string * string)) :
  (forall ip cmd, In (ip, cmd) pairs -> Py.all_chars host_char ip = true) ->
  exists exec_cmds,
    main_exec_cmds (Some (map (fun e => fst e ++ ":" ++ snd e) pairs))
    = Returns exec_cmds
    /\ forall ip,
        od_get ip exec_cmds
        = match od_get ip (rev pairs) with
          | Some cmd => Some (cmd ++ " --color --force-color")
          | None => None
          end.
Proof.
  intros H. destruct pairs as [|p pairs].
  - exists []. split; reflexivity.
  - eexists. split.
    + assert (Hm : main_exec_cmds
                     (Some (map (fun e => fst e ++ ":" ++ snd e) (p :: pairs)))
                   = exec_cmds_loop (map (fun e => fst e ++ ":" ++ snd e) (p :: pairs)) [])
        by reflexivity.
      rewrite Hm. now apply exec_cmds_loop_pairs.
    + intros ip. now rewrite od_get_fold_set.
Qed.

Lemma last_exec_option_wins_witness :
  exists exec_cmds,
    main_exec_cmds (Some (map (fun e => fst e ++ ":" ++ snd e)
                              [("node1", "/opt/a"); ("node2", "ssh:x"); ("node1", "/opt/b")]))
    = Returns exec_cmds
    /\ forall ip,
        od_get ip exec_cmds
        = match od_get ip (rev [("node1", "/opt/a"); ("node2", "ssh:x"); ("node1", "/opt/b")]) with
          | Some cmd => Some (cmd ++ " --color --force-color")
          | None => None
          end.
Proof.
  apply (last_exec_option_wins
           [("node1", "/opt/a"); ("node2", "ssh:x"); ("node1", "/opt/b")]).
  intros ip cmd [[= <- <-]|[[= <- <-]|[[= <- <-]|[]]]]; reflexivity.
Defined.

Lemma exec_cmds_loop_raises (entries : list string) (d : OrderedDict) (bad : string) :
  In bad entries -> Py.all_chars host_char bad = true ->
  exec_cmds_loop entries d
  = Raises (ValueError "not enough values to unpack (expected 2, got 1)").
Proof.
  revert d. induction entries as [|entry entries IH]; intros d Hin Hbad; [destruct Hin|].
  cbn [exec_cmds_loop].
  destruct Hin as [->|Hin].
  - rewrite (split_once_no_colon _ Hbad). reflexivity.
  - destruct (split_once_cases entry) as [[-> _]|(ip & cmd & -> & _ & _)];
      [reflexivity | now apply IH].
Qed.

(** X22. One [--exec] option without a colon stops [main] before
    anything is started: the unpacking raises [ValueError], whatever the
    other options and the hosts are. *)
Theorem exec_option_without_colon_raises
        (tc : Termcolor.env) (hosts_args entries : list string) (ssh_port : Z)
        (bad : string) :
  In bad entries ->
  Py.all_chars host_char bad = true ->
  main_startup tc hosts_args (Some entries) ssh_port
  = Raises (ValueError "not enough values to unpack (expected 2, got 1)").
Proof.
  intros Hin Hbad. unfold main_startup, main_exec_cmds.
  destruct entries as [|e entries]; [destruct Hin|].
  now rewrite (exec_cmds_loop_raises _ _ bad Hin Hbad).
Qed.

Lemma exec_option_without_colon_raises_witness :
  main_startup Termcolor.v1 ["node1"] (Some ["node1:/opt/gpustat"; "node2"]) 22
  = Raises (ValueError "not enough values to unpack (expected 2, got 1)").
Proof.
  apply (exec_option_without_colon_raises Termcolor.v1 ["node1"]
           ["node1:/opt/gpustat"; "node2"] 22 "node2").
  - simpl. right. left. reflexivity.
  - reflexivity.
Defined.

(** X23. From [main] a start-up fails only on a host token that does
    not parse: once the [--exec] options are read, [spawn_clients] gets
    a dictionary and a host list that is not empty (["localhost"] when
    no host is given), so it prints no exception exactly when every
    token parses, and then it launches one supervisor per token. *)
Theorem main_starts_unless_token_malformed
        (tc : Termcolor.env) (hosts_args : list string)
        (exec_args : option (list string)) (ssh_port : Z) (exec_cmds : OrderedDict) :
  main_exec_cmds exec_args = Returns exec_cmds ->
  exists st ctx,
    main_startup tc hosts_args exec_args ssh_port = Returns (Returns st, ctx)
    /\ (printed st = None
        <-> forall tok, In tok (main_hosts hosts_args) ->
                        exists v, _parse_host_string ssh_port tok = Returns v)
    /\ (printed st = None -> length (started st) = length (main_hosts hosts_args))
    /\ (hosts_args = [] ->
        started st = [{| c_hostname := "localhost";
                         c_exec_cmd := match od_get "localhost" exec_cmds with
                                       | Some cmd => cmd
                                       | None => "gpustat --color --force-color"
                                       end;
                         c_port := ssh_port; c_username := "netdb" |}]).
Proof.
  intros Hexec. unfold main_startup. rewrite Hexec.
  destruct (spawn_clients_printed tc (main_hosts hosts_args) (Some exec_cmds)
                                  ssh_port Context_init)
    as (st & Hst & Hiff & Hlen & _).
  exists st, (exec_M (spawn_clients tc (main_hosts hosts_args) (Some exec_cmds) ssh_port)
                     Context_init).
  split; [|split; [|split]].
  - unfold eval_M, exec_M in *.
    destruct (spawn_clients _ _ _ _ _) as [o c]. cbn [fst snd] in *. now subst.
  - rewrite Hiff. split; [tauto|]. intros H. split; [|split; [exact H | discriminate]].
    now destruct hosts_args.
  - exact Hlen.
  - intros ->. cbn [main_hosts] in Hst.
    assert (Hp : comprehension (_parse_host_string ssh_port) ["localhost"]
                 = Returns [("netdb", "localhost", ssh_port)]).
    { cbn [comprehension].
      pose proof (parse_host_without_port ssh_port "localhost" "") as Hl.
      cbn [append] in Hl. rewrite Hl; [reflexivity | discriminate | reflexivity | now left]. }
    unfold eval_M in Hst. rewrite (spawn_clients_parsed _ _ _ _ _ _ _ Hp) in Hst.
    cbn [fst] in Hst. injection Hst as <-. reflexivity.
Qed.

Lemma main_starts_unless_token_malformed_witness :
  exists st ctx,
    main_startup Termcolor.v1 [] (Some ["localhost:/opt/gpustat"]) 22
    = Returns (Returns st, ctx)
    /\ (printed st = None
        <-> forall tok, In tok (main_hosts []) ->
                        exists v, _parse_host_string 22 tok = Returns v)
    /\ (printed st = None -> length (started st) = length (main_hosts []))
    /\ ([] = @nil string ->
        started st
        = [{| c_hostname := "localhost";
              c_exec_cmd :=
                match od_get "localhost"
                        [("localhost", "/opt/gpustat --color --force-color")] with
                | Some cmd => cmd
                | None => "gpustat --color --force-color"
                end;
              c_port := 22; c_username := "netdb" |}]).
Proof.
  apply (main_starts_unless_token_malformed Termcolor.v1 [] (Some ["localhost:/opt/gpustat"]) 22
           [("localhost", "/opt/gpustat --color --force-color")]).
  reflexivity.
Defined.

(** ** The plain rendering as one pass of deletions *)

Lemma RE_ANSI_classes :
  RE_ANSI
  = Re.Seq (Re.Lit Py.ESC)
      (Re.Alt (Re.Class two_character_final)
         (Re.Seq (Re.Lit "[")
            (Re.Seq (Re.Star csi_parameter)
               (Re.Seq (Re.Star csi_intermediate) (Re.Class csi_final))))).
Proof. reflexivity. Qed.

(** The classes of a control sequence do not overlap, and [[] does not
    end a two-character sequence. *)
Lemma csi_classes_disjoint (c : ascii) :
  (two_character_final c = true -> Ascii.eqb "[" c = false)
  /\ (csi_parameter c = true -> csi_intermediate c = false /\ csi_final c = false)
  /\ (csi_intermediate c = true -> csi_parameter c = false /\ csi_final c = false)
  /\ (csi_final c = true -> csi_parameter c = false /\ csi_intermediate c = false).
Proof.
  destruct c as [[] [] [] [] [] [] [] []]; vm_compute;
    repeat split; intros; repeat split; congruence.
Qed.

(** [RE_ANSI] never backtracks into a different match: after [ESC] the
    next character decides the alternative, and the two runs of a
    control sequence end where their classes end. *)
Lemma exec_RE_ANSI {A} (s : string) (g : Re.groups)
      (k : string -> Re.groups -> option A) :
  Re.exec RE_ANSI s g k
  = match s with
    | String e (String c r) =>
        if Ascii.eqb Py.ESC e then
          if two_character_final c then k r g
          else if Ascii.eqb "[" c then
            match snd (Py.span csi_intermediate (snd (Py.span csi_parameter r))) with
            | String f r' => if csi_final f then k r' g else None
            | EmptyString => None
            end
          else None
        else None
    | _ => None
    end.
Proof.
  rewrite RE_ANSI_classes.
  destruct s as [|e [|c r]]; [reflexivity| |].
  - rewrite exec_Seq, exec_Lit. destruct (Ascii.eqb Py.ESC e); reflexivity.
  - rewrite exec_Seq, exec_Lit. destruct (Ascii.eqb Py.ESC e); [|reflexivity].
    rewrite exec_Alt, exec_Class, exec_Seq, exec_Lit.
    destruct (csi_classes_disjoint c) as (Htwo & _).
    destruct (two_character_final c) eqn:E2.
    + rewrite (Htwo eq_refl). apply or_else_None_r.
    + cbn [Re.or_else]. destruct (Ascii.eqb "[" c); [|reflexivity].
      rewrite exec_Seq, exec_Star, star_class_reject.
      * rewrite exec_Seq, exec_Star, star_class_reject.
        -- now destruct (snd (Py.span csi_intermediate (snd (Py.span csi_parameter r)))).
        -- intros x s' Hx. rewrite exec_Class.
           destruct (csi_classes_disjoint x) as (_ & _ & H & _).
           now rewrite (proj2 (H Hx)).
      * intros x s' Hx.
        destruct (csi_classes_disjoint x) as (_ & H & _). destruct (H Hx) as [Hi Hf].
        rewrite exec_Seq, exec_Star, (star_class_stop _ _ _ _ Hi), exec_Class.
        now rewrite Hf.
Qed.

Lemma escape_sequence_not_empty (m : string) :
  escape_sequence m -> exists e m', m = String e m'.
Proof. intros [c _|ps ints f _ _ _]; eauto. Qed.

(** Where an escape sequence begins, [RE_ANSI] matches exactly it. *)
Lemma escape_sequence_matched (m rest : string) :
  escape_sequence m ->
  Re.match_length RE_ANSI (m ++ rest) = Some (String.length m).
Proof.
  intros Hm. unfold Re.match_length, Re.re_match. rewrite exec_RE_ANSI.
  destruct Hm as [c Hc|ps ints f Hps Hints Hf].
  - cbn [append]. rewrite Ascii.eqb_refl, Hc. cbn [Re.m_rest String.length].
    f_equal. lia.
  - cbn [append]. rewrite Ascii.eqb_refl.
    change (two_character_final "[") with false. cbv iota.
    rewrite Ascii.eqb_refl, !append_assoc. cbn [append].
    destruct (csi_classes_disjoint f) as (_ & _ & _ & Hfin).
    destruct (Hfin Hf) as [Hfp Hfi].
    rewrite (span_all csi_parameter ps (ints ++ String f rest) Hps).
    + cbn [snd]. rewrite (span_all csi_intermediate ints (String f rest) Hints).
      * cbn [snd]. rewrite Hf. cbn [Re.m_rest String.length]. f_equal.
        rewrite !length_append. cbn [String.length]. lia.
      * right. exists f, rest. now split.
    + destruct ints as [|i ints]; right.
      * exists f, rest. now split.
      * exists i, (ints ++ String f rest). split; [reflexivity|].
        unfold Py.all_chars in Hints. simpl in Hints.
        apply andb_true_iff in Hints as [Hi _].
        destruct (csi_classes_disjoint i) as (_ & _ & H & _). exact (proj1 (H Hi)).
Qed.

Lemma length_consumed (a b : string) :
  String.length (a ++ b) - String.length b = String.length a.
Proof. rewrite length_append. lia. Qed.

(** What [RE_ANSI] matches is an escape sequence. *)
Lemma matched_is_escape_sequence (s : string) (n : nat) :
  Re.match_length RE_ANSI s = Some n ->
  exists m rest, s = m ++ rest /\ escape_sequence m /\ String.length m = n.
Proof.
  unfold Re.match_length, Re.re_match. rewrite exec_RE_ANSI.
  destruct s as [|e [|c r]]; [discriminate..|].
  destruct (Ascii.eqb_spec Py.ESC e) as [<-|]; [|discriminate].
  destruct (two_character_final c) eqn:E2.
  - change (String Py.ESC (String c r)) with (String Py.ESC (String c "") ++ r).
    unfold Re.m_rest. rewrite length_consumed. intros [= <-].
    exists (String Py.ESC (String c "")), r.
    split; [reflexivity|]. split; [now constructor | reflexivity].
  - destruct (Ascii.eqb_spec "[" c) as [<-|]; [|discriminate].
    pose proof (span_append csi_parameter r) as H1.
    pose proof (span_prefix_all csi_parameter r) as P1.
    pose proof (span_append csi_intermediate (snd (Py.span csi_parameter r))) as H2.
    pose proof (span_prefix_all csi_intermediate (snd (Py.span csi_parameter r))) as P2.
    destruct (snd (Py.span csi_intermediate (snd (Py.span csi_parameter r))))
      as [|f r']; [discriminate|].
    destruct (csi_final f) eqn:Ef; [|discriminate].
    assert (Hs : String Py.ESC (String "[" r)
                 = String Py.ESC
                     (String "[" (fst (Py.span csi_parameter r)
                                  ++ fst (Py.span csi_intermediate
                                            (snd (Py.span csi_parameter r)))
                                  ++ String f "")) ++ r').
    { cbn [append]. rewrite !append_assoc. cbn [append]. now rewrite H2, H1. }
    rewrite Hs. unfold Re.m_rest. rewrite length_consumed. intros [= <-].
    eexists _, r'. split; [reflexivity|]. split; [now constructor | reflexivity].
Qed.

(** The deletions of [RE_ANSI.sub('', s)] are one pass over [s]. *)
Lemma sub_empty_is_one_pass (s : string) :
  stripped_once s (Re.sub_empty RE_ANSI s).
Proof.
  unfold Re.sub_empty.
  assert (H : forall n s, (String.length s <= n)%nat ->
                          stripped_once s (Re.sub_empty_from RE_ANSI 0 s)).
  { clear s. induction n as [|n IH]; intros s Hn.
    - destruct s; [constructor | simpl in Hn; lia].
    - destruct s as [|c s']; [constructor|].
      cbn [Re.sub_empty_from].
      destruct (Re.match_length RE_ANSI (String c s')) as [k|] eqn:E.
      + destruct (matched_is_escape_sequence _ _ E) as (m & rest & Hs & Hm & Hk).
        destruct (escape_sequence_not_empty m Hm) as (e & m' & ->).
        cbn [append] in Hs. injection Hs as -> ->.
        cbn [String.length] in Hk. subst k.
        rewrite sub_empty_from_skip.
        change (String e (m' ++ rest)) with (String e m' ++ rest).
        apply stripped_sequence; [exact Hm|]. apply IH.
        cbn [String.length] in Hn. rewrite length_append in Hn. lia.
      + apply stripped_keep.
        * intros m rest Hm Hs.
          rewrite Hs, (escape_sequence_matched m rest Hm) in E. discriminate.
        * apply IH. cbn [String.length] in Hn. lia. }
  apply (H (String.length s)). lia.
Qed.

(** One pass has one result. *)
Lemma one_pass_is_sub_empty (s out : string) :
  stripped_once s out -> out = Re.sub_empty RE_ANSI s.
Proof.
  unfold Re.sub_empty.
  induction 1 as [|m rest out Hm Hrest IH|c s out Hno Hs IH].
  - reflexivity.
  - destruct (escape_sequence_not_empty m Hm) as (e & m' & E).
    pose proof (escape_sequence_matched m rest Hm) as Hlen. subst m.
    cbn [append] in *. cbn [Re.sub_empty_from]. rewrite Hlen.
    cbn [String.length]. now rewrite sub_empty_from_skip.
  - cbn [Re.sub_empty_from].
    destruct (Re.match_length RE_ANSI (String c s)) as [k|] eqn:E.
    + destruct (matched_is_escape_sequence _ _ E) as (m & rest & Hs' & Hm & _).
      now destruct (Hno m rest Hm).
    + now rewrite IH.
Qed.

(** C8, as the code has it.  For every store and every filter the raw
    and the plain rendering both return, and the plain text is the raw
    text after one pass from the left that deletes each escape sequence
    where it begins ([ESC] and one of [@-Z], [\], []], [^], [_]; or
    [ESC [], parameter characters [0-?], intermediate characters
    [space-/] and a final character [@-~]) and keeps every other
    character; the pass has no other result.  It is not repeated on its
    own result. *)
Theorem strip_raw_is_plain
        (ansi_convert : string -> bool -> string)
        (full full' : bool) (nodes : option (list string)) (ctx : Context) :
  exists raw plain,
    eval_M (render_gpustat_body ansi_convert "ansi" full nodes) ctx = Returns raw
    /\ eval_M (render_gpustat_body ansi_convert "plain" full' nodes) ctx
       = Returns plain
    /\ stripped_once raw plain
    /\ forall out, stripped_once raw out -> out = plain.
Proof.
  exists (Py.join "" (map snd (snapshot nodes (host_status ctx)))),
    (Re.sub_empty RE_ANSI (Py.join "" (map snd (snapshot nodes (host_status ctx))))).
  split; [apply render_ansi_snapshot|]. split; [apply render_plain_snapshot|].
  split; [apply sub_empty_is_one_pass | apply one_pass_is_sub_empty].
Qed.

(** C8 as claimed fails: the plain rendering is not free of escape
    sequences.  For the stored text [ESC ESC [m[0mC] the one pass deletes
    [ESC [m] and leaves [ESC [0mC], which holds the sequence [ESC [0m];
    without it the text would be [C]. *)
Lemma plain_rendering_holds_escape_sequence :
  let ctx := {| host_status :=
                  [("node1", String Py.ESC (String Py.ESC "[m[0mC"))] |} in
  eval_M (render_gpustat_body no_markup "ansi" true None) ctx
  = Returns (String Py.ESC (String Py.ESC "[m[0mC"))
  /\ eval_M (render_gpustat_body no_markup "plain" true None) ctx
     = Returns (String Py.ESC "[0mC")
  /\ holds_escape_sequence (String Py.ESC "[0mC")
  /\ Re.sub_empty RE_ANSI (String Py.ESC "[0mC") = "C".
Proof.
  cbv zeta. split; [vm_compute; reflexivity|]. split; [vm_compute; reflexivity|].
  split; [|vm_compute; reflexivity].
  exists "", (String Py.ESC "[0m"), "C". split; [reflexivity|].
  apply (esc_csi "0" "" "m"); reflexivity.
Qed.

(** ** Ports beyond what [int] converts *)

(** A port of 4300 digits is converted, one of 4301 digits is the
    [ValueError] of [int]. *)
Lemma port_digit_limit :
  _parse_host_string 22 ("node1:" ++ repeat_char "0" 4296 ++ "2222")
  = Returns ("netdb", "node1", 2222%Z)
  /\ _parse_host_string 22 ("node1:" ++ repeat_char "0" 4297 ++ "2222")
     = Raises (ValueError ("Exceeds the limit (4300 digits) for integer string "
                           ++ "conversion: value has 4301 digits; use "
                           ++ "sys.set_int_max_str_digits() to increase the limit")).
Proof. split; vm_compute; reflexivity. Qed.
